(** * replace_links.py: a shallow embedding and its properties

    The script rewrites jsDelivr and raw.githubusercontent links of one
    repository and branch into links under a custom domain.  This file
    embeds [parse_repo_string], [replace_links_in_file] and [main], together
    with the fragment of Python's [re], [str] and [os] they rely on.

    Text is modelled as a list of characters; a character is a code point
    below 256 (Rocq's [ascii]), so [\s], [str.strip] and [str.lower] are the
    Python functions restricted to U+0000..U+00FF.  File contents are the
    decoded text that [f.read()] returns. *)

From Stdlib Require Import Ascii String List Arith Bool Lia.
From stdpp Require Import gmap strings list.
Import ListNotations.

Local Open Scope char_scope.
Local Open Scope list_scope.

Abbreviation text := (list ascii).

(** A Python string literal. *)
Definition str (s : string) : text := list_ascii_of_string s.

(** The double quote has no escape in a Rocq string literal. *)
Definition dquote : ascii := "034".

(** ** Characters *)

Module Char.

Definition code (c : ascii) : nat := nat_of_ascii c.

Definition between (lo hi : nat) (c : ascii) : bool :=
  ((lo <=? code c) && (code c <=? hi))%nat.

(** [str.isspace] on one character, which is also what [\s] matches in a
    [str] pattern: TAB..CR, FS..US, space, NEL and NBSP below U+0100. *)
Definition isspace (c : ascii) : bool :=
  between 9 13 c || between 28 32 c || (code c =? 133)%nat || (code c =? 160)%nat.

(** ASCII letters and digits: what follows a backslash with a special
    meaning in a pattern. *)
Definition isalnum (c : ascii) : bool :=
  between 48 57 c || between 65 90 c || between 97 122 c.

(** [str.lower] on one character: A-Z, and the Latin-1 capitals
    U+00C0..U+00DE without the multiplication sign U+00D7. *)
Definition lower (c : ascii) : ascii :=
  if between 65 90 c || (between 192 222 c && negb (code c =? 215)%nat)
  then ascii_of_nat (code c + 32) else c.

Definition mem (c : ascii) (l : text) : bool := existsb (Ascii.eqb c) l.

End Char.

(** ** The fragment of [re] that the script's three patterns use *)

Module Re.

(** One item of a negated character class [[^...]]. *)
Inductive citem : Type :=
| CChar (c : ascii)
| CSpace.

(** What a single position may hold. *)
Inductive cset : Type :=
| Dot                          (* [.]: anything but a newline *)
| NotIn (items : list citem).   (* [[^...]] *)

(** A compiled pattern is a sequence of nodes. *)
Inductive node : Type :=
| Lit (c : ascii)              (* a literal character *)
| Opt (c : ascii)              (* [c?], greedy *)
| Group (cs : cset).           (* [(X+)]: capturing, greedy, one or more *)

Definition citem_matches (c : ascii) (i : citem) : bool :=
  match i with
  | CChar x => Ascii.eqb c x
  | CSpace => Char.isspace c
  end.

Definition cset_mem (cs : cset) (c : ascii) : bool :=
  match cs with
  | Dot => negb (Ascii.eqb c "010")
  | NotIn items => negb (existsb (citem_matches c) items)
  end.

(** *** [re.escape] *)

(** The characters [re.escape] puts a backslash before
    (Python 3.7 and later). *)
Definition special_chars : text :=
  str "()[]{}?*+-|^$\.&~# " ++ ["009"; "010"; "013"; "011"; "012"].

Definition escape (s : text) : text :=
  flat_map (fun c => if Char.mem c special_chars then ["\"; c] else [c]) s.

(** *** [re.compile] on the fragment *)

(** Characters with a meaning of their own outside a class. *)
Definition meta_chars : text := str ".^$*+?{}[]\|()".

(** Characters that do not stand for themselves inside a class. *)
Definition class_meta_chars : text := str "\]^-[".

Inductive mode : Type :=
| Top
| InClass (acc : list citem).

(** [compile_from m s] reads the pattern text [s]; [None] is a pattern
    outside the fragment (or one that [re.compile] refuses). *)
Fixpoint compile_from (m : mode) (s : text) {struct s} : option (list node) :=
  match s with
  | [] => match m with Top => Some [] | InClass _ => None end
  | c :: s1 =>
    match m with
    | Top =>
      if Ascii.eqb c "(" then
        match s1 with
        | c1 :: s2 =>
          if Ascii.eqb c1 "[" then
            match s2 with
            | c2 :: s3 =>
              if Ascii.eqb c2 "^" then compile_from (InClass []) s3 else None
            | [] => None
            end
          else if Ascii.eqb c1 "." then
            match s2 with
            | c2 :: c3 :: s4 =>
              if Ascii.eqb c2 "+" && Ascii.eqb c3 ")"
              then option_map (cons (Group Dot)) (compile_from Top s4)
              else None
            | _ => None
            end
          else None
        | [] => None
        end
      else if Ascii.eqb c "\" then
        match s1 with
        | c1 :: s2 =>
          if Char.isalnum c1 then None
          else
            match s2 with
            | c2 :: s3 =>
              if Ascii.eqb c2 "?"
              then option_map (cons (Opt c1)) (compile_from Top s3)
              else option_map (cons (Lit c1)) (compile_from Top s2)
            | [] => option_map (cons (Lit c1)) (compile_from Top s2)
            end
        | [] => None
        end
      else if Char.mem c meta_chars then None
      else
        match s1 with
        | c1 :: s2 =>
          if Ascii.eqb c1 "?"
          then option_map (cons (Opt c)) (compile_from Top s2)
          else option_map (cons (Lit c)) (compile_from Top s1)
        | [] => option_map (cons (Lit c)) (compile_from Top s1)
        end
    | InClass acc =>
      if Ascii.eqb c "]" then
        match acc, s1 with
        | _ :: _, c1 :: c2 :: s3 =>
          if Ascii.eqb c1 "+" && Ascii.eqb c2 ")"
          then option_map (cons (Group (NotIn (rev acc)))) (compile_from Top s3)
          else None
        | _, _ => None
        end
      else if Ascii.eqb c "\" then
        match s1 with
        | c1 :: s2 =>
          if Ascii.eqb c1 "s" then compile_from (InClass (CSpace :: acc)) s2
          else if Char.isalnum c1 then None
          else compile_from (InClass (CChar c1 :: acc)) s2
        | [] => None
        end
      else if Char.mem c class_meta_chars then None
      else compile_from (InClass (CChar c :: acc)) s1
    end
  end.

Definition compile (s : text) : option (list node) := compile_from Top s.

(** *** Matching at a position, with backtracking *)

(** The longest run of characters of [cs] at the head of [s]. *)
Fixpoint run (cs : cset) (s : text) : nat :=
  match s with
  | c :: s' => if cset_mem cs c then S (run cs s') else 0
  | [] => 0
  end.

(** A match: the captured groups and the text after the match. *)
Definition result : Type := list text * text.

(** A greedy group gives back one character at a time until the rest of
    the pattern matches. *)
Fixpoint backtrack (k : text -> option result) (s : text) (n : nat)
  : option result :=
  match n with
  | 0 => None
  | S n' =>
    match k (drop n s) with
    | Some (gs, rest) => Some (take n s :: gs, rest)
    | None => backtrack k s n'
    end
  end.

Fixpoint match_at (p : list node) (s : text) {struct p} : option result :=
  match p with
  | [] => Some ([], s)
  | Lit c :: p' =>
    match s with
    | x :: s' => if Ascii.eqb x c then match_at p' s' else None
    | [] => None
    end
  | Opt c :: p' =>
    match
      match s with
      | x :: s' => if Ascii.eqb x c then match_at p' s' else None
      | [] => None
      end
    with
    | Some r => Some r
    | None => match_at p' s
    end
  | Group cs :: p' => backtrack (match_at p') s (run cs s)
  end.

(** *** [Pattern.sub] with a replacement function *)

(** The replacement function sees the groups of the match and threads the
    state it mutates ([nonlocal] in the script).  The scan is leftmost and
    non-overlapping; [fuel] bounds the positions visited.  The patterns of
    the script never match the empty string, and a match that consumes
    nothing is not replaced here. *)
Fixpoint sub_fuel {St : Type} (fuel : nat) (p : list node)
    (repl : list text -> St -> text * St) (s : text) (st : St) : text * St :=
  match fuel with
  | 0 => (s, st)
  | S fuel' =>
    match s with
    | [] => ([], st)
    | c :: s' =>
      match match_at p s with
      | Some (gs, rest) =>
        if (length rest <? length s)%nat then
          let '(r, st1) := repl gs st in
          let '(out, st2) := sub_fuel fuel' p repl rest st1 in
          (r ++ out, st2)
        else
          let '(out, st2) := sub_fuel fuel' p repl s' st in
          (c :: out, st2)
      | None =>
        let '(out, st2) := sub_fuel fuel' p repl s' st in
        (c :: out, st2)
      end
    end
  end.

Definition sub {St : Type} (p : list node)
    (repl : list text -> St -> text * St) (s : text) (st : St) : text * St :=
  sub_fuel (length s) p repl s st.

End Re.

(** ** The [str] and [os.path] functions the script calls *)

Module Str.

Fixpoint lstrip_char (x : ascii) (s : text) : text :=
  match s with
  | c :: s' => if Ascii.eqb c x then lstrip_char x s' else s
  | [] => []
  end.

(** [s.lstrip()], [s.rstrip()] and [s.strip()] without argument. *)
Fixpoint lstrip (s : text) : text :=
  match s with
  | c :: s' => if Char.isspace c then lstrip s' else s
  | [] => []
  end.

Definition rstrip (s : text) : text := rev (lstrip (rev s)).

Definition strip (s : text) : text := rstrip (lstrip s).

Definition lower (s : text) : text := map Char.lower s.

(** [s.split(sep)] for a one-character separator: never empty. *)
Fixpoint split (sep : ascii) (s : text) : list text :=
  match s with
  | [] => [[]]
  | c :: s' =>
    if Ascii.eqb c sep then [] :: split sep s'
    else
      match split sep s' with
      | piece :: pieces => (c :: piece) :: pieces
      | [] => [[c]]
      end
  end.

Fixpoint startswith (s pre : text) {struct pre} : bool :=
  match pre, s with
  | [], _ => true
  | x :: pre', c :: s' => Ascii.eqb c x && startswith s' pre'
  | _ :: _, [] => false
  end.

Definition endswith (s suf : text) : bool := startswith (rev s) (rev suf).

(** [s.endswith(t)] for a tuple [t] of suffixes. *)
Definition endswith_any (s : text) (sufs : list text) : bool :=
  existsb (endswith s) sufs.

Fixpoint eqb (a b : text) : bool :=
  match a, b with
  | [], [] => true
  | x :: a', y :: b' => Ascii.eqb x y && eqb a' b'
  | _, _ => false
  end.

Definition nonempty (s : text) : bool :=
  match s with [] => false | _ :: _ => true end.

(** [os.path.join(a, b)] on POSIX. *)
Definition path_join (a b : text) : text :=
  if startswith b ["/"] then b
  else if negb (nonempty a) || endswith a ["/"] then a ++ b
  else a ++ "/" :: b.

End Str.

(** ** [parse_repo_string] *)

Inductive parse_error : Type :=
| BadFormat      (* "Repository string must be in the format ..." *)
| EmptyPart      (* "User, repository name, and branch cannot be empty." *)
| PatternError.  (* [re.error] from the pattern itself *)

Definition repo_pattern : text := str "([^/]+)/([^@]+)@(.+)".

Definition parse_repo_string (repo_string : text)
  : (text * text * text) + parse_error :=
  match Re.compile repo_pattern with
  | None => inr PatternError
  | Some p =>
    match Re.match_at p repo_string with
    | Some ([user; repo; branch], _) =>
      if Str.nonempty user && Str.nonempty repo && Str.nonempty branch
      then inl (user, repo, branch)
      else inr EmptyPart
    | Some _ => inr BadFormat
    | None => inr BadFormat
    end
  end.

(** ** The substitutions of [replace_links_in_file] *)

Definition path_class : text := str "/([^\s\" ++ dquote :: str "\'\)<>]+)".

Definition jsdelivr_source (repo_user repo_name branch : text) : text :=
  str "https?://cdn\.jsdelivr\.net/gh/" ++ Re.escape repo_user ++ str "/"
    ++ Re.escape repo_name ++ str "@" ++ Re.escape branch ++ path_class.

Definition github_raw_source (repo_user repo_name branch : text) : text :=
  str "https?://raw\.githubusercontent\.com/" ++ Re.escape repo_user ++ str "/"
    ++ Re.escape repo_name ++ str "/" ++ Re.escape branch ++ path_class.

Definition replacement_url_base (custom_domain : text) : text :=
  str "https://" ++ custom_domain.

(** The nested [replacer]: [replacements_made] is the state it mutates. *)
Definition replacer (custom_domain : text) (groups : list text)
    (replacements_made : nat) : text * nat :=
  let path := nth 0 groups [] in
  (replacement_url_base custom_domain ++ "/" :: Str.lstrip_char "/" path,
   S replacements_made).

(** Lines 55-90: both patterns are compiled, then applied in sequence;
    [None] is an exception raised by [re.compile]. *)
Definition substitute (repo_user repo_name branch custom_domain : text)
    (content : text) : option (text * nat) :=
  match Re.compile (jsdelivr_source repo_user repo_name branch),
        Re.compile (github_raw_source repo_user repo_name branch) with
  | Some jsdelivr_pattern, Some github_raw_pattern =>
    let '(content1, n1) :=
      Re.sub jsdelivr_pattern (replacer custom_domain) content 0 in
    Some (Re.sub github_raw_pattern (replacer custom_domain) content1 n1)
  | _, _ => None
  end.

(** ** Files, directories and output *)

(** The exceptions the [except] clauses of [replace_links_in_file] tell
    apart. *)
Inductive exn : Type :=
| FileNotFoundError
| IOError
| OtherError.

(** A file: its decoded text, and the exception that opening it for reading
    (or decoding it) or opening it for writing raises, if any. *)
Record file : Type := File {
  contents : text;
  read_fault : option exn;
  write_fault : option exn
}.

(** A directory as [os.walk] sees it: sub-directories and file names. *)
#[local] Unset Elimination Schemes.
Inductive dtree : Type :=
| Dir (subdirs : list (text * dtree)) (filenames : list text).
#[local] Set Elimination Schemes.

Inductive event : Type :=
| EvWalk (top : text)
| EvOpenRead (path : text)
| EvOpenWrite (path : text).

(** The lines printed, without their decoration. *)
Inductive line : Type :=
| OutBanner (repo domain directory : text) (exts : list text)
| OutProcessing (path : text)
| OutReplaced (n : nat)
| OutNotFound (path : text)
| OutIOError (path : text)
| OutUnexpected (path : text)
| OutNoFiles (exts : list text) (directory : text)
| OutSummary (files replacements : nat)
| ErrRepo (repo : text) (e : parse_error)
| ErrExtensions.

Record world : Type := World {
  files : gmap text file;      (* path -> file *)
  dirs : gmap text dtree;      (* directory path -> its tree *)
  events : list event;         (* file system calls, oldest first *)
  stdout : list line;
  stderr : list line
}.

Definition log (e : event) (w : world) : world :=
  World (files w) (dirs w) (events w ++ [e]) (stdout w) (stderr w).

Definition print (l : line) (w : world) : world :=
  World (files w) (dirs w) (events w) (stdout w ++ [l]) (stderr w).

Definition eprint (l : line) (w : world) : world :=
  World (files w) (dirs w) (events w) (stdout w) (stderr w ++ [l]).

(** [open(filepath, 'r', encoding='utf-8')] followed by [read()]. *)
Definition read_file (filepath : text) (w : world) : (text + exn) * world :=
  let w' := log (EvOpenRead filepath) w in
  match files w !! filepath with
  | None => (inr FileNotFoundError, w')
  | Some f =>
    match read_fault f with
    | Some e => (inr e, w')
    | None => (inl (contents f), w')
    end
  end.

(** What a later [read()] returns for a text that was written: in text
    mode a line feed is written as it is (on POSIX) and a carriage return,
    alone or followed by a line feed, is read as one line feed. *)
Fixpoint universal_newlines (s : text) : text :=
  match s with
  | [] => []
  | c :: s' =>
    if Ascii.eqb c "013" then
      "010" :: match s' with
               | c' :: s'' =>
                 if Ascii.eqb c' "010" then universal_newlines s''
                 else universal_newlines s'
               | [] => []
               end
    else c :: universal_newlines s'
  end.

(** [open(filepath, 'w', encoding='utf-8')] followed by [write(content)];
    an open that fails leaves the file as it is.  The map holds the text of
    a file as reading it returns it, so a write stores the text as it is
    read back.  A [write] that raises after the open has truncated the file
    is outside the model: a write fault is a failing [open]. *)
Definition write_file (filepath content : text) (w : world)
  : option exn * world :=
  let w' := log (EvOpenWrite filepath) w in
  match files w !! filepath with
  | Some f =>
    match write_fault f with
    | Some e => (Some e, w')
    | None =>
      (None,
       World (<[filepath := File (universal_newlines content)
                                 (read_fault f) (write_fault f)]> (files w'))
             (dirs w') (events w') (stdout w') (stderr w'))
    end
  | None =>
    (None,
     World (<[filepath := File (universal_newlines content) None None]> (files w'))
           (dirs w') (events w') (stdout w') (stderr w'))
  end.

(** The three [except] clauses differ in the line they print. *)
Definition report (filepath : text) (e : exn) : line :=
  match e with
  | FileNotFoundError => OutNotFound filepath
  | IOError => OutIOError filepath
  | OtherError => OutUnexpected filepath
  end.

(** ** [replace_links_in_file] *)

Definition replace_links_in_file
    (filepath repo_user repo_name branch custom_domain : text) (w : world)
  : nat * world :=
  match read_file filepath w with
  | (inr e, w1) => (0, print (report filepath e) w1)
  | (inl original_content, w1) =>
    match substitute repo_user repo_name branch custom_domain
                     original_content with
    | None => (0, print (report filepath OtherError) w1)
    | Some (content, replacements_made) =>
      if Str.eqb content original_content then (replacements_made, w1)
      else
        match write_file filepath content w1 with
        | (Some e, w2) => (replacements_made, print (report filepath e) w2)
        | (None, w2) => (replacements_made, print (OutReplaced replacements_made) w2)
        end
    end
  end.

(** ** [main] *)

Record args : Type := Args {
  repo : text;
  domain : text;
  directory : text;
  extensions : text
}.

(** [tuple(ext.strip().lower() for ext in s.split(',') if ext.strip())] *)
Definition parse_extensions (s : text) : list text :=
  map (fun ext => Str.lower (Str.strip ext))
      (List.filter (fun ext => Str.nonempty (Str.strip ext)) (Str.split "," s)).

Definition selected (file_extensions : list text) (filename : text) : bool :=
  Str.endswith_any (Str.lower filename) file_extensions.

(** [os.walk(top)], top-down: a directory's own files come before those of
    its sub-directories. *)
Fixpoint walk (top : text) (t : dtree) : list (text * list text) :=
  match t with
  | Dir subdirs filenames =>
    (top, filenames)
      :: flat_map (fun d => walk (Str.path_join top (fst d)) (snd d)) subdirs
  end.

(** A directory that does not exist, or cannot be listed, yields nothing:
    [os.walk] ignores the error. *)
Definition os_walk (top : text) (w : world) : list (text * list text) * world :=
  let w' := log (EvWalk top) w in
  match dirs w !! top with
  | Some t => (walk top t, w')
  | None => ([], w')
  end.

(** The per-run counters and the world, threaded through the loops. *)
Record run_state : Type := RunState {
  total_files_processed : nat;
  total_replacements : nat;
  the_world : world
}.

(** The body of the inner loop, for one file name.  The relative path is
    only computed for the progress line, which here carries [filepath].
    [replace_links_in_file] catches every exception itself, so the [except]
    clause around the call is never entered. *)
Definition process_file (repo_user repo_name branch custom_domain : text)
    (file_extensions : list text) (root : text)
    (st : run_state) (filename : text) : run_state :=
  if selected file_extensions filename then
    let filepath := Str.path_join root filename in
    let w1 := print (OutProcessing filepath) (the_world st) in
    let '(count, w2) :=
      replace_links_in_file filepath repo_user repo_name branch custom_domain w1 in
    RunState (S (total_files_processed st)) (total_replacements st + count) w2
  else st.

(** The body of the outer loop, for one triple that [os.walk] yields. *)
Definition process_dir (repo_user repo_name branch custom_domain : text)
    (file_extensions : list text)
    (st : run_state) (entry : text * list text) : run_state :=
  fold_left
    (process_file repo_user repo_name branch custom_domain file_extensions
                  (fst entry))
    (snd entry) st.

(** The final lines. *)
Definition summary (file_extensions : list text) (start_dir : text)
    (st : run_state) : world :=
  if (total_files_processed st =? 0)%nat
  then print (OutNoFiles file_extensions start_dir) (the_world st)
  else print (OutSummary (total_files_processed st) (total_replacements st))
             (the_world st).

(** The exit status and the final world. *)
Definition main (a : args) (w : world) : nat * world :=
  match parse_repo_string (repo a) with
  | inr e => (1, eprint (ErrRepo (repo a) e) w)
  | inl (repo_user, repo_name, branch) =>
    let custom_domain := domain a in
    let start_dir := directory a in
    let file_extensions := parse_extensions (extensions a) in
    match file_extensions with
    | [] => (1, eprint ErrExtensions w)
    | _ :: _ =>
      let w1 :=
        print (OutBanner (repo a) custom_domain start_dir file_extensions) w in
      let '(entries, w2) := os_walk start_dir w1 in
      let st :=
        fold_left
          (process_dir repo_user repo_name branch custom_domain file_extensions)
          entries (RunState 0 0 w2) in
      (0, summary file_extensions start_dir st)
    end
  end.

(** ** Compiled forms and auxiliary notions for the statements *)

Module ReSpec.
Import Re.

Definition lits (s : text) : list node := map Lit s.

(** [s] does not begin with a question mark. *)
Definition no_quantifier (s : text) : Prop :=
  match s with c :: _ => Ascii.eqb c "?" = false | [] => True end.

(** The set of the final group of both link patterns. *)
Definition path_set : cset :=
  NotIn [CSpace; CChar dquote; CChar "'"; CChar ")"; CChar "<"; CChar ">"].

Definition path_group : node := Group path_set.

(** A character that may occur in a captured path: no whitespace and none
    of the five delimiters. *)
Definition path_char (c : ascii) : bool :=
  negb (Char.isspace c) && negb (Char.mem c [dquote; "'"; ")"; "<"; ">"]).

(** The literal text between the scheme and the captured path. *)
Definition jsdelivr_lit (u r b : text) : text :=
  str "://cdn.jsdelivr.net/gh/" ++ u ++ "/" :: r ++ "@" :: b ++ ["/"].

Definition github_raw_lit (u r b : text) : text :=
  str "://raw.githubusercontent.com/" ++ u ++ "/" :: r ++ "/" :: b ++ ["/"].

(** [https?] then a literal then the path group. *)
Definition url_nodes (lit : text) : list node :=
  lits (str "http") ++ Opt "s" :: lits lit ++ [path_group].

Definition jsdelivr_nodes (u r b : text) : list node :=
  url_nodes (jsdelivr_lit u r b).

Definition github_raw_nodes (u r b : text) : list node :=
  url_nodes (github_raw_lit u r b).

(** [after pre s]: what follows the prefix [pre] of [s]. *)
Fixpoint after (pre s : text) : option text :=
  match pre, s with
  | [], _ => Some s
  | x :: pre', c :: s' => if Ascii.eqb c x then after pre' s' else None
  | _ :: _, [] => None
  end.

(** The optional [s] of the scheme. *)
Definition drop_s (s : text) : text :=
  match s with
  | c :: s' => if Ascii.eqb c "s" then s' else s
  | [] => []
  end.

(** A link pattern matched by hand: the captured path and the text after
    the match. *)
Definition url_match (lit s : text) : option (text * text) :=
  match after (str "http") s with
  | None => None
  | Some s1 =>
    match after lit (drop_s s1) with
    | None => None
    | Some s3 =>
      match run path_set s3 with
      | 0 => None
      | S _ => Some (take (run path_set s3) s3, drop (run path_set s3) s3)
      end
    end
  end.

(** [rest] cannot extend a captured path: it is empty or begins with a
    character outside the path set. *)
Definition stops (rest : text) : Prop :=
  match rest with
  | [] => True
  | c :: _ => path_char c = false
  end.

Definition all_path_chars (s : text) : Prop :=
  Forall (fun c => path_char c = true) s.

(** Adds the text captured by a group in front of the later groups. *)
Definition capture (g : text) (r : result) : result := (g :: fst r, snd r).

End ReSpec.

(** ** Notions used to state the properties of [parse_repo_string] *)

Definition nl : ascii := "010".

Definition not_slash : Re.cset := Re.NotIn [Re.CChar "/"].
Definition not_at : Re.cset := Re.NotIn [Re.CChar "@"].

Definition repo_nodes : list Re.node :=
  [Re.Group not_slash; Re.Lit "/"; Re.Group not_at; Re.Lit "@"; Re.Group Re.Dot].

(** The shape [owner/name@branch] with three non-empty parts. *)
Definition has_shape (s : text) : Prop :=
  exists user repo branch : text,
    user <> [] /\ repo <> [] /\ branch <> [] /\
    s = user ++ "/" :: repo ++ "@" :: branch.

(** What [parse_repo_string] accepts: the owner runs to the first slash, the
    name from there to the next at sign, the branch from there to the end of
    the line. *)
Definition accepted_as (s user repo branch : text) : Prop :=
  exists rest : text,
    s = user ++ "/" :: repo ++ "@" :: branch ++ rest /\
    Str.nonempty user = true /\ Char.mem "/" user = false /\
    Str.nonempty repo = true /\ Char.mem "@" repo = false /\
    Str.nonempty branch = true /\ Char.mem nl branch = false /\
    (rest = [] \/ exists rest', rest = nl :: rest').

(** ** The text and the count that a substitution produces *)

(** The URL that [replacer] builds from a captured path. *)
Definition new_url (custom_domain path : text) : text :=
  replacement_url_base custom_domain ++ "/" :: Str.lstrip_char "/" path.

Definition sub_text (p : list Re.node) (custom_domain s : text) : text :=
  fst (Re.sub p (replacer custom_domain) s 0).

Definition sub_count (p : list Re.node) (custom_domain s : text) : nat :=
  snd (Re.sub p (replacer custom_domain) s 0).

(** The content after both substitutions, and the value of
    [replacements_made] then. *)
Definition rewritten (u r b d s : text) : text :=
  sub_text (ReSpec.github_raw_nodes u r b) d
           (sub_text (ReSpec.jsdelivr_nodes u r b) d s).

Definition replacements (u r b d s : text) : nat :=
  sub_count (ReSpec.jsdelivr_nodes u r b) d s
  + sub_count (ReSpec.github_raw_nodes u r b) d
              (sub_text (ReSpec.jsdelivr_nodes u r b) d s).

(** ** Occurrences of [http] *)

(** The number of positions of [s] where [http] begins. *)
Fixpoint count_http (s : text) : nat :=
  match s with
  | [] => 0
  | c :: s' =>
    (if Str.startswith s (str "http") then 1 else 0) + count_http s'
  end.

(** [s] contains neither of the two separators of a reference. *)
Definition sep_free (s : text) : bool :=
  negb (Char.mem "/" s) && negb (Char.mem "@" s).

(** A second pass over the rewritten text changes nothing and counts
    nothing. *)
Definition fixed_after (u r b d s : text) : Prop :=
  rewritten u r b d (rewritten u r b d s) = rewritten u r b d s /\
  replacements u r b d (rewritten u r b d s) = 0.

(** ** Example inputs *)

(** The configuration of the examples: [alice/myrepo@main], served from
    [cdn.example.com]. *)
Definition ex_user : text := str "alice".
Definition ex_repo : text := str "myrepo".
Definition ex_branch : text := str "main".
Definition ex_domain : text := str "cdn.example.com".

Definition ex_jsdelivr_url : text :=
  str "https://cdn.jsdelivr.net/gh/alice/myrepo@main/images/a.png".
Definition ex_jsdelivr_new : text := str "https://cdn.example.com/images/a.png".
Definition ex_raw_url : text :=
  str "https://raw.githubusercontent.com/alice/myrepo/main/docs/b.txt".
Definition ex_raw_new : text := str "https://cdn.example.com/docs/b.txt".

(** [pre] is empty or ends with a character that no path may contain. *)
Definition stopped_before (pre : text) : Prop := ReSpec.stops (rev pre).

(** A reference whose branch begins with a newline, and one whose branch
    spans two lines. *)
Definition ref_newline_first : text := str "a/b@" ++ [nl; "c"].
Definition ref_two_lines : text := str "a/b@c" ++ [nl; "d"].

(** A jsDelivr link whose path holds a second one. *)
Definition ex_nested_url : text :=
  str "https://cdn.jsdelivr.net/gh/alice/myrepo@main/x/" ++ ex_jsdelivr_url.

(** A directory [d] with one Markdown file that holds the example link and
    cannot be opened for writing. *)
Definition ex_locked_file : file :=
  File (str "see " ++ ex_jsdelivr_url) None (Some IOError).

Definition ex_locked_world : world :=
  World {[ str "d/a.md" := ex_locked_file ]}
        {[ str "d" := Dir [] [str "a.md"] ]} [] [] [].

Definition ex_args : args :=
  Args (str "alice/myrepo@main") ex_domain (str "d") (str ".md").

(** A world without files or directories. *)
Definition ex_empty_world : world := World ∅ ∅ [] [] [].

(** ** Notions used to state properties of a whole run *)

(** The paths opened for reading, oldest first. *)
Definition reads (evs : list event) : list text :=
  flat_map (fun e => match e with EvOpenRead p => [p] | _ => [] end) evs.

(** The paths opened, for reading or for writing. *)
Definition opens (evs : list event) : list text :=
  flat_map
    (fun e =>
       match e with
       | EvOpenRead p => [p]
       | EvOpenWrite p => [p]
       | EvWalk _ => []
       end) evs.

(** The paths of the files with a configured extension, in the order in
    which [os.walk] yields them. *)
Definition selected_paths (file_extensions : list text)
    (entries : list (text * list text)) : list text :=
  flat_map
    (fun entry =>
       map (Str.path_join (fst entry))
           (List.filter (selected file_extensions) (snd entry)))
    entries.

(** The counter of files follows the opens for reading. *)
Definition counted (n0 : nat) (st : run_state) : Prop :=
  length (reads (events (the_world st))) = n0 + total_files_processed st.

(** Every path opened since [evs0] was opened for reading. *)
Definition read_first (evs0 : list event) (st : run_state) : Prop :=
  forall q, In q (opens (events (the_world st))) ->
            In q (opens evs0) \/ In q (reads (events (the_world st))).

(** No file has appeared or disappeared since [fs]. *)
Definition same_files (fs : gmap text file) (st : run_state) : Prop :=
  forall q, files (the_world st) !! q = None <-> fs !! q = None.

(** A comma or a whitespace character. *)
Definition blank (c : ascii) : bool := Ascii.eqb c "," || Char.isspace c.

(** A directory [d] with a Markdown file that holds the example link and
    can be written, and a text file. *)
Definition ex_open_file : file := File (str "see " ++ ex_jsdelivr_url) None None.

Definition ex_open_world : world :=
  World {[ str "d/a.md" := ex_open_file ]}
        {[ str "d" := Dir [] [str "a.md"; str "notes.txt"] ]} [] [] [].

(** A directory [d] whose file names differ in the case of their
    extension; [md] has no extension at all. *)
Definition ex_mixed_world : world :=
  World (<[ str "d/notes.txt" := File (str "n") None None ]>
           (<[ str "d/README.MD" := File (str "r") None None ]>
              (<[ str "d/NOTES.TXT" := File (str "N") None None ]>
                 {[ str "d/md" := File (str "m") None None ]})))
        {[ str "d" := Dir [] [str "notes.txt"; str "README.MD";
                              str "NOTES.TXT"; str "md"] ]} [] [] [].

Definition ex_mixed_args (exts : text) : args :=
  Args (str "alice/myrepo@main") ex_domain (str "d") exts.

(** ** Where links begin *)

(** A link of the shape [lit] begins at the head of [s]. *)
Definition link_at (lit s : text) : bool :=
  match ReSpec.url_match lit s with Some _ => true | None => false end.

(** No link of the shape [lit] begins at a position of [q], in the text
    [q ++ w]. *)
Fixpoint no_link_start (lit q w : text) : bool :=
  match q with
  | [] => true
  | _ :: q' => negb (link_at lit (q ++ w)) && no_link_start lit q' w
  end.

(** No link of either configured shape begins at a position of [q], in the
    text [q ++ w]. *)
Definition link_free (u r b q w : text) : bool :=
  no_link_start (ReSpec.jsdelivr_lit u r b) q w
  && no_link_start (ReSpec.github_raw_lit u r b) q w.

(** A custom domain that is a host name of its own: no slash, and neither
    of the two hosts of the patterns. *)
Definition fresh_host (d : text) : bool :=
  negb (Char.mem "/" d)
  && negb (Str.eqb d (str "cdn.jsdelivr.net"))
  && negb (Str.eqb d (str "raw.githubusercontent.com")).

(** [s] has no colon. *)
Definition colon_free (s : text) : bool := negb (Char.mem ":" s).

(** The number of positions of [s] where a link of a configured shape
    begins. *)
Fixpoint link_starts (u r b s : text) : nat :=
  match s with
  | [] => 0
  | _ :: s' =>
    (if link_at (ReSpec.jsdelivr_lit u r b) s
        || link_at (ReSpec.github_raw_lit u r b) s
     then 1 else 0)
    + link_starts u r b s'
  end.

(** A text that splits, at characters no path may contain, into pieces in
    each of which at most one configured link begins. *)
Inductive spaced (u r b : text) : text -> Prop :=
| spaced_piece (t : text) : link_starts u r b t <= 1 -> spaced u r b t
| spaced_split (a : text) (e : ascii) (t : text) :
    spaced u r b a -> ReSpec.path_char e = false -> spaced u r b t ->
    spaced u r b (a ++ e :: t).

(** ** Notions used to state that a second run changes nothing *)

(** The paths opened for writing, oldest first. *)
Definition writes (evs : list event) : list text :=
  flat_map (fun e => match e with EvOpenWrite p => [p] | _ => [] end) evs.

(** A line that reports no replacement. *)
Definition idle_line (l : line) : bool :=
  match l with
  | OutReplaced _ => false
  | OutSummary _ n => (n =? 0)%nat
  | _ => true
  end.

(** Every file at one of [paths] that can be read can be written, and a
    second pass over its rewritten text changes nothing, also when that
    text is read back from the file. *)
Definition all_fixed (u r b d : text) (paths : list text)
    (fs : gmap text file) : Prop :=
  forall p f, In p paths -> fs !! p = Some f -> read_fault f = None ->
              write_fault f = None /\ fixed_after u r b d (contents f) /\
              replacements u r b d
                (universal_newlines (rewritten u r b d (contents f))) = 0.

(** The file at [p], if it is there and can be read, holds no link to
    count. *)
Definition settled (u r b d p : text) (fs : gmap text file) : Prop :=
  forall f, fs !! p = Some f -> read_fault f = None ->
            replacements u r b d (contents f) = 0.

(** Since the files were [fs], the writes [ws] and the output [out], the
    run has changed no file, written nothing, counted nothing and printed
    only lines that report no replacement. *)
Definition idle_run (fs : gmap text file) (ws : list text) (out : list line)
    (st : run_state) : Prop :=
  files (the_world st) = fs /\ total_replacements st = 0 /\
  writes (events (the_world st)) = ws /\
  exists lines, stdout (the_world st) = out ++ lines /\
                forallb idle_line lines = true.

(** A custom domain with [http] in its name, and a text with an archived
    copy of the first example link and the second example link. *)
Definition ex_httpbin : text := str "httpbin.org".

Definition ex_archived_text : text :=
  str "see" ++ " " :: (str "https://web.archive.org/web/2024/" ++ ex_jsdelivr_url)
    ++ " " :: ex_raw_url.

Definition ex_archived_new : text :=
  str "see" ++ " "
    :: (str "https://web.archive.org/web/2024/"
          ++ str "https://httpbin.org/images/a.png")
    ++ " " :: str "https://httpbin.org/docs/b.txt".

(** A jsDelivr link of the configured repository whose path holds the
    first example link, after the word [mirror:]. *)
Definition ex_redirect_text : text :=
  str "mirror: https://cdn.jsdelivr.net/gh/alice/myrepo@main/go?to="
    ++ ex_jsdelivr_url.

(** A jsDelivr link of another repository, [bob/site@v1], whose path holds
    the first example link. *)
Definition ex_wrapping_url : text :=
  str "https" ++ ReSpec.jsdelivr_lit (str "bob") (str "site") (str "v1")
    ++ str "go?to=" ++ ex_jsdelivr_url.
(** * Properties *)

(** ** Characters: facts checked on all 256 code points *)

Ltac all_chars c :=
  destruct c as [[] [] [] [] [] [] [] []]; vm_compute; try reflexivity;
  try congruence; try (intuition congruence).

Lemma special_not_alnum c :
  Char.mem c Re.special_chars = true -> Char.isalnum c = false.
Proof. all_chars c. Qed.

Lemma not_special_plain c :
  Char.mem c Re.special_chars = false ->
  Ascii.eqb c "(" = false /\ Ascii.eqb c "\" = false /\
  Char.mem c Re.meta_chars = false /\ Ascii.eqb c "?" = false.
Proof. all_chars c. Qed.

(** ** [re.compile] of the script's patterns *)

Module ReFacts.
Import Re ReSpec.

Lemma compile_plain c s :
  Char.mem c special_chars = false -> no_quantifier s ->
  compile_from Top (c :: s) = option_map (cons (Lit c)) (compile_from Top s).
Proof.
  intros Hc Hs. destruct (not_special_plain c Hc) as (H1 & H2 & H3 & _).
  cbn [compile_from]. rewrite H1, H2, H3.
  destruct s as [|c1 s2]; [reflexivity|]. cbn in Hs. now rewrite Hs.
Qed.

Lemma compile_escaped c s :
  Char.isalnum c = false -> no_quantifier s ->
  compile_from Top ("\" :: c :: s)
  = option_map (cons (Lit c)) (compile_from Top s).
Proof.
  intros Hc Hs. cbn [compile_from].
  change (Ascii.eqb "\" "(") with false. change (Ascii.eqb "\" "\") with true.
  cbn iota. rewrite Hc.
  destruct s as [|c1 s2]; [reflexivity|]. cbn in Hs. now rewrite Hs.
Qed.

Lemma escape_no_quantifier u rest :
  no_quantifier rest -> no_quantifier (escape u ++ rest).
Proof.
  intros Hr. destruct u as [|c u]; [exact Hr|].
  unfold escape. cbn [flat_map].
  destruct (Char.mem c special_chars) eqn:Hc; cbn.
  - reflexivity.
  - now destruct (not_special_plain c Hc) as (_ & _ & _ & H).
Qed.

(** [re.escape] makes every character a literal: the escaped text
    compiles to one [Lit] node per character of the original. *)
Lemma compile_escape u rest :
  no_quantifier rest ->
  compile_from Top (escape u ++ rest)
  = option_map (app (lits u)) (compile_from Top rest).
Proof.
  intros Hr. induction u as [|c u IH].
  - cbn. now destruct (compile_from Top rest).
  - change (escape (c :: u)) with
      ((if Char.mem c special_chars then ["\"; c] else [c]) ++ escape u).
    pose proof (escape_no_quantifier u rest Hr) as Hq.
    destruct (Char.mem c special_chars) eqn:Hc; cbn [app].
    + rewrite (compile_escaped c _ (special_not_alnum c Hc) Hq).
      rewrite IH. now destruct (compile_from Top rest).
    + rewrite (compile_plain c _ Hc Hq).
      rewrite IH. now destruct (compile_from Top rest).
Qed.

Lemma compile_path_class :
  compile_from Top path_class = Some [Lit "/"; path_group].
Proof. reflexivity. Qed.

Lemma compile_components (sep : ascii) u r b :
  Char.mem sep special_chars = false ->
  compile_from Top
    (escape u ++ str "/" ++ escape r ++ [sep] ++ escape b ++ path_class)
  = Some (lits (u ++ "/" :: r ++ sep :: b ++ ["/"]) ++ [path_group]).
Proof.
  intros Hsep.
  assert (Hq : Ascii.eqb sep "?" = false) by apply (not_special_plain sep Hsep).
  rewrite compile_escape by (cbn; reflexivity).
  cbn [str list_ascii_of_string app].
  rewrite compile_plain; [|reflexivity|now apply escape_no_quantifier].
  rewrite compile_escape by exact Hq.
  rewrite compile_plain; [|assumption|now apply escape_no_quantifier].
  rewrite compile_escape by reflexivity.
  rewrite compile_path_class. cbn [option_map]. f_equal.
  unfold lits.
  repeat first [rewrite map_app | rewrite <- app_assoc | progress cbn [map app]].
  reflexivity.
Qed.

Lemma compile_optional c s :
  Char.mem c special_chars = false ->
  compile_from Top (c :: "?" :: s)
  = option_map (cons (Opt c)) (compile_from Top s).
Proof.
  intros Hc. destruct (not_special_plain c Hc) as (H1 & H2 & H3 & _).
  cbn [compile_from]. rewrite H1, H2, H3. reflexivity.
Qed.

(** Reads a closed stretch of pattern text one character at a time. *)
Ltac read_pattern H :=
  cbn [str list_ascii_of_string app];
  repeat first
    [ rewrite compile_plain by first [exact H | reflexivity]
    | rewrite compile_optional by reflexivity
    | rewrite compile_escaped by first [exact H | reflexivity] ];
  match goal with
  | |- context [compile_from Top ?r] => destruct (compile_from Top r)
  end; reflexivity.

Lemma compile_jsdelivr_host rest :
  no_quantifier rest ->
  compile_from Top (str "https?://cdn\.jsdelivr\.net/gh/" ++ rest)
  = option_map
      (app (lits (str "http") ++ Opt "s" :: lits (str "://cdn.jsdelivr.net/gh/")))
      (compile_from Top rest).
Proof. intros Hq. read_pattern Hq. Qed.

Lemma compile_github_raw_host rest :
  no_quantifier rest ->
  compile_from Top (str "https?://raw\.githubusercontent\.com/" ++ rest)
  = option_map
      (app (lits (str "http") ++ Opt "s"
              :: lits (str "://raw.githubusercontent.com/")))
      (compile_from Top rest).
Proof. intros Hq. read_pattern Hq. Qed.

Lemma compile_jsdelivr u r b :
  compile (jsdelivr_source u r b) = Some (jsdelivr_nodes u r b).
Proof.
  unfold compile, jsdelivr_source.
  rewrite compile_jsdelivr_host by now apply escape_no_quantifier.
  pose proof (compile_components "@" u r b eq_refl) as H.
  cbn [str list_ascii_of_string app] in H |- *. rewrite H.
  reflexivity.
Qed.

Lemma compile_github_raw u r b :
  compile (github_raw_source u r b) = Some (github_raw_nodes u r b).
Proof.
  unfold compile, github_raw_source.
  rewrite compile_github_raw_host by now apply escape_no_quantifier.
  pose proof (compile_components "/" u r b eq_refl) as H.
  cbn [str list_ascii_of_string app] in H |- *. rewrite H.
  reflexivity.
Qed.

(** *** Matching literals and the final group *)

Lemma after_Some pre s s' : after pre s = Some s' <-> s = pre ++ s'.
Proof.
  revert s. induction pre as [|x pre IH]; intros s; cbn.
  - split; congruence.
  - destruct s as [|c s]; [split; discriminate|].
    destruct (Ascii.eqb_spec c x) as [->|Hne].
    + rewrite IH. split; congruence.
    + split; [discriminate|]. intros [=]. contradiction.
Qed.

Lemma after_app pre s : after pre (pre ++ s) = Some s.
Proof. now apply after_Some. Qed.

Lemma match_lits l p s :
  match_at (lits l ++ p) s
  = match after l s with Some s' => match_at p s' | None => None end.
Proof.
  revert s. induction l as [|x l IH]; intros s; [reflexivity|].
  cbn. destruct s as [|c s]; [reflexivity|].
  destruct (Ascii.eqb c x); [apply IH|reflexivity].
Qed.

Lemma run_le cs s : run cs s <= length s.
Proof. induction s as [|c s IH]; cbn; [lia|]. destruct (cset_mem cs c); cbn; lia. Qed.

Lemma run_take cs s : Forall (fun c => cset_mem cs c = true) (take (run cs s) s).
Proof.
  induction s as [|c s IH]; cbn; [constructor|].
  destruct (cset_mem cs c) eqn:Hc; cbn; [|constructor].
  constructor; assumption.
Qed.

(** The run is maximal: it stops at the end of the text or before a
    character outside the set. *)
Lemma run_drop cs s :
  match drop (run cs s) s with
  | [] => True
  | c :: _ => cset_mem cs c = false
  end.
Proof.
  induction s as [|c s IH]; cbn; [exact I|].
  destruct (cset_mem cs c) eqn:Hc; cbn; assumption.
Qed.

Lemma run_app cs a s :
  Forall (fun c => cset_mem cs c = true) a ->
  match s with [] => True | c :: _ => cset_mem cs c = false end ->
  run cs (a ++ s) = length a.
Proof.
  intros Ha Hs. induction Ha as [|c a Hc Ha IH]; cbn.
  - destruct s as [|c s]; [reflexivity|]. cbn. now rewrite Hs.
  - now rewrite Hc, IH.
Qed.

Lemma match_group_last cs s :
  match_at [Group cs] s
  = match run cs s with
    | 0 => None
    | S _ => Some ([take (run cs s) s], drop (run cs s) s)
    end.
Proof. cbn. destruct (run cs s); reflexivity. Qed.

(** *** [sub] does not depend on the fuel *)

Section Sub.
Context {St : Type} (p : list node) (repl : list text -> St -> text * St).

Lemma sub_fuel_enough fuel s st :
  length s <= fuel -> sub_fuel fuel p repl s st = sub p repl s st.
Proof.
  unfold sub. revert s st.
  induction fuel as [fuel IH] using lt_wf_ind. intros s st Hlen.
  destruct s as [|c s]; [now destruct fuel|].
  destruct fuel as [|fuel]; [cbn in Hlen; lia|].
  cbn [length sub_fuel] in *.
  destruct (match_at p (c :: s)) as [[gs rest]|].
  - destruct (length rest <? S (length s))%nat eqn:Hlt.
    + apply Nat.ltb_lt in Hlt. destruct (repl gs st) as [r st1].
      rewrite (IH fuel) by lia. rewrite (IH (length s)) by lia.
      reflexivity.
    + rewrite (IH fuel) by lia. reflexivity.
  - rewrite (IH fuel) by lia. reflexivity.
Qed.

Lemma sub_nil st : sub p repl [] st = ([], st).
Proof. reflexivity. Qed.

Lemma sub_skip c s st :
  match_at p (c :: s) = None ->
  sub p repl (c :: s) st
  = let '(out, st') := sub p repl s st in (c :: out, st').
Proof. intros H. unfold sub. cbn [length sub_fuel]. now rewrite H. Qed.

Lemma sub_hit c s gs rest st :
  match_at p (c :: s) = Some (gs, rest) ->
  length rest <= length s ->
  sub p repl (c :: s) st
  = let '(r, st1) := repl gs st in
    let '(out, st2) := sub p repl rest st1 in (r ++ out, st2).
Proof.
  intros H Hlen. unfold sub at 1. cbn [length sub_fuel]. rewrite H.
  assert (Hlt : (length rest <? S (length s))%nat = true)
    by (apply Nat.ltb_lt; lia).
  rewrite Hlt. destruct (repl gs st) as [r st1].
  now rewrite sub_fuel_enough.
Qed.

(** Where the pattern matches nowhere, [sub] changes nothing. *)
Lemma sub_no_match s st :
  (forall i, match_at p (drop i s) = None) -> sub p repl s st = (s, st).
Proof.
  induction s as [|c s IH]; intros H; [reflexivity|].
  rewrite sub_skip by apply (H 0).
  rewrite IH; [reflexivity|]. intros i. apply (H (S i)).
Qed.

End Sub.

(** *** A greedy group followed by a literal outside its set *)

Lemma backtrack_none k s n :
  (forall m, 1 <= m <= n -> k (drop m s) = None) -> backtrack k s n = None.
Proof.
  induction n as [|n IH]; intros H; [reflexivity|].
  cbn [backtrack]. rewrite (H (S n)) by lia. apply IH. intros m Hm. apply H. lia.
Qed.

Lemma run_inside cs s m :
  m < run cs s -> exists c s', drop m s = c :: s' /\ cset_mem cs c = true.
Proof.
  revert m. induction s as [|c s IH]; intros m; cbn; [lia|].
  destruct (cset_mem cs c) eqn:Hc; [|lia]. intros Hm.
  destruct m as [|m]; cbn.
  - eauto.
  - apply IH. lia.
Qed.

Lemma take_run_nonempty cs s n :
  run cs s = S n -> Str.nonempty (take (S n) s) = true.
Proof. destruct s; [discriminate|reflexivity]. Qed.

Lemma match_group_lit cs c p s :
  cset_mem cs c = false ->
  match_at (Group cs :: Lit c :: p) s
  = match run cs s, drop (run cs s) s with
    | S _, x :: s' =>
      if Ascii.eqb x c
      then option_map (capture (take (run cs s) s)) (match_at p s')
      else None
    | _, _ => None
    end.
Proof.
  intros Hc. cbn [match_at].
  assert (Hlow : forall n, n < run cs s ->
            backtrack (match_at (Lit c :: p)) s n = None).
  { intros n Hn. apply backtrack_none. intros m Hm.
    destruct (run_inside cs s m) as (x & s' & -> & Hx); [lia|].
    cbn. destruct (Ascii.eqb_spec x c) as [->|]; congruence. }
  destruct (run cs s) as [|n] eqn:Hrun; [reflexivity|].
  cbn [backtrack]. rewrite Hlow by lia.
  destruct (drop (S n) s) as [|x s'] eqn:Hd; cbn [match_at]; [reflexivity|].
  destruct (Ascii.eqb x c); [|reflexivity].
  destruct (match_at p s') as [[gs rest]|]; reflexivity.
Qed.

(** *** The two link patterns *)

Lemma path_set_mem c : cset_mem path_set c = path_char c.
Proof. unfold path_char, Char.mem. cbn. now rewrite negb_orb. Qed.

Lemma match_opt_s lit' s :
  match_at (Opt "s" :: lits (":" :: lit') ++ [path_group]) s
  = match_at (lits (":" :: lit') ++ [path_group]) (drop_s s).
Proof.
  cbn [match_at]. destruct s as [|c s]; [reflexivity|]. cbn [drop_s].
  destruct (Ascii.eqb_spec c "s") as [->|Hc].
  - destruct (match_at _ s) as [r|]; reflexivity.
  - reflexivity.
Qed.

(** The compiled link pattern and the hand-written matcher agree. *)
Lemma match_url lit' s :
  match_at (url_nodes (":" :: lit')) s
  = option_map (fun pr => ([fst pr], snd pr)) (url_match (":" :: lit') s).
Proof.
  unfold url_nodes, url_match. rewrite match_lits.
  destruct (after (str "http") s) as [s1|]; [|reflexivity].
  rewrite match_opt_s, match_lits.
  destruct (after (":" :: lit') (drop_s s1)) as [s3|]; [|reflexivity].
  unfold path_group. rewrite match_group_last. now destruct (run path_set s3).
Qed.

Lemma after_length pre s s' : after pre s = Some s' -> length s = length pre + length s'.
Proof. intros H. apply after_Some in H as ->. apply length_app. Qed.

Lemma drop_s_length s : length (drop_s s) <= length s.
Proof. destruct s as [|c s]; cbn; [lia|]. destruct (Ascii.eqb c "s"); cbn; lia. Qed.

(** A match consumes at least the four letters of the scheme. *)
Lemma url_match_shorter lit s path rest :
  url_match lit s = Some (path, rest) -> length rest + 4 < length s.
Proof.
  unfold url_match.
  destruct (after (str "http") s) as [s1|] eqn:H1; [|discriminate].
  destruct (after lit (drop_s s1)) as [s3|] eqn:H3; [|discriminate].
  destruct (run path_set s3) as [|n] eqn:Hn; [discriminate|].
  intros [= _ <-]. apply after_length in H1, H3. cbn in H1.
  pose proof (drop_s_length s1). pose proof (run_le path_set s3).
  rewrite length_drop. lia.
Qed.

Lemma path_run_take s : all_path_chars (take (run path_set s) s).
Proof.
  eapply Forall_impl; [apply run_take|]. intros c Hc. now rewrite <- path_set_mem.
Qed.

Lemma path_run_drop s : stops (drop (run path_set s) s).
Proof.
  pose proof (run_drop path_set s) as H. unfold stops.
  destruct (drop (run path_set s) s); [exact I|]. now rewrite <- path_set_mem.
Qed.

Lemma path_run_app path rest :
  all_path_chars path -> stops rest -> run path_set (path ++ rest) = length path.
Proof.
  intros Hp Hr. apply run_app.
  - eapply Forall_impl; [exact Hp|]. intros c Hc. now rewrite path_set_mem.
  - destruct rest; [exact I|]. now rewrite path_set_mem.
Qed.

(** What a match of a link pattern looks like. *)
Lemma url_match_inv lit s path rest :
  url_match lit s = Some (path, rest) ->
  exists scheme,
    (scheme = str "http" \/ scheme = str "https") /\
    s = scheme ++ lit ++ path ++ rest /\
    path <> [] /\ all_path_chars path /\ stops rest.
Proof.
  unfold url_match.
  destruct (after (str "http") s) as [s1|] eqn:H1; [|discriminate].
  destruct (after lit (drop_s s1)) as [s3|] eqn:H3; [|discriminate].
  destruct (run path_set s3) as [|n] eqn:Hn; [discriminate|].
  intros [= <- <-]. apply after_Some in H1, H3. subst s.
  assert (Hs : exists scheme, (scheme = str "http" \/ scheme = str "https") /\
                 str "http" ++ s1 = scheme ++ drop_s s1).
  { destruct s1 as [|c s1]; cbn [drop_s]; [now exists (str "http"); auto|].
    destruct (Ascii.eqb_spec c "s") as [->|_].
    - exists (str "https"). auto.
    - exists (str "http"). auto. }
  destruct Hs as (scheme & Hscheme & ->). exists scheme.
  split; [exact Hscheme|]. rewrite H3, take_drop. split; [reflexivity|].
  split; [|split].
  - destruct s3; [discriminate|]. discriminate.
  - rewrite <- Hn. apply path_run_take.
  - rewrite <- Hn. apply path_run_drop.
Qed.

Lemma url_match_intro lit' scheme path rest :
  scheme = str "http" \/ scheme = str "https" ->
  path <> [] -> all_path_chars path -> stops rest ->
  url_match (":" :: lit') (scheme ++ (":" :: lit') ++ path ++ rest)
  = Some (path, rest).
Proof.
  intros Hscheme Hne Hp Hr. unfold url_match.
  assert (H1 : after (str "http") (scheme ++ (":" :: lit') ++ path ++ rest)
               = Some (drop 4 scheme ++ (":" :: lit') ++ path ++ rest)
               /\ drop_s (drop 4 scheme ++ (":" :: lit') ++ path ++ rest)
                  = (":" :: lit') ++ path ++ rest)
    by (destruct Hscheme as [-> | ->]; split; reflexivity).
  destruct H1 as [-> ->]. rewrite after_app, path_run_app by assumption.
  rewrite take_app_length, drop_app_length.
  destruct path; [contradiction|reflexivity].
Qed.

(** *** [sub] with a link pattern *)

Section SubUrl.
Context {St : Type} (lit' : text) (repl : list text -> St -> text * St).

#[local] Abbreviation lit := (":" :: lit').

Lemma sub_url_hit s path rest st :
  url_match lit s = Some (path, rest) ->
  sub (url_nodes lit) repl s st
  = let '(r, st1) := repl [path] st in
    let '(out, st2) := sub (url_nodes lit) repl rest st1 in (r ++ out, st2).
Proof.
  intros H. pose proof (url_match_shorter _ _ _ _ H) as Hlen.
  destruct s as [|c s]; [cbn in Hlen; lia|].
  apply sub_hit; [|cbn in Hlen; lia].
  rewrite match_url, H. reflexivity.
Qed.

Lemma sub_url_skip c s st :
  url_match lit (c :: s) = None ->
  sub (url_nodes lit) repl (c :: s) st
  = let '(out, st') := sub (url_nodes lit) repl s st in (c :: out, st').
Proof.
  intros H. apply sub_skip. rewrite match_url, H. reflexivity.
Qed.

End SubUrl.

Lemma lstrip_char_spec x s :
  exists k, s = repeat x k ++ Str.lstrip_char x s /\
            Str.startswith (Str.lstrip_char x s) [x] = false.
Proof.
  induction s as [|c s (k & IH1 & IH2)]; [now exists 0|].
  cbn [Str.lstrip_char]. destruct (Ascii.eqb_spec c x) as [->|Hne].
  - exists (S k). cbn. now rewrite <- IH1.
  - exists 0. split; [reflexivity|]. cbn.
    destruct (Ascii.eqb_spec c x); [contradiction|reflexivity].
Qed.

(** *** Matches do not cross a character outside the path set *)

Lemma after_app_stop pre a rest :
  all_path_chars pre -> stops rest ->
  after pre (a ++ rest) = option_map (fun r => r ++ rest) (after pre a).
Proof.
  intros Hpre Hrest. revert a.
  induction Hpre as [|x pre Hx Hpre IH]; intros a; [reflexivity|].
  destruct a as [|c a]; cbn.
  - destruct rest as [|e rest]; [reflexivity|]. cbn in Hrest.
    destruct (Ascii.eqb_spec e x) as [->|]; [congruence|reflexivity].
  - destruct (Ascii.eqb c x); [apply IH|reflexivity].
Qed.

Lemma drop_s_app_stop a rest : stops rest -> drop_s (a ++ rest) = drop_s a ++ rest.
Proof.
  intros Hrest. destruct a as [|c a]; cbn [app drop_s].
  - destruct rest as [|e rest]; [reflexivity|]. cbn [stops drop_s] in *.
    destruct (Ascii.eqb_spec e "s") as [->|]; [discriminate|reflexivity].
  - now destruct (Ascii.eqb c "s").
Qed.

Lemma run_app_stop a rest : stops rest -> run path_set (a ++ rest) = run path_set a.
Proof.
  intros Hrest. induction a as [|c a IH]; cbn.
  - destruct rest as [|e rest]; [reflexivity|]. cbn in *.
    rewrite <- path_set_mem in Hrest. cbn in Hrest. now rewrite Hrest.
  - now rewrite IH.
Qed.

Lemma url_match_app_stop lit a rest :
  all_path_chars lit -> stops rest ->
  url_match lit (a ++ rest)
  = option_map (fun pr => (fst pr, snd pr ++ rest)) (url_match lit a).
Proof.
  intros Hlit Hrest. unfold url_match.
  rewrite (after_app_stop (str "http")); [|repeat constructor|assumption].
  destruct (after (str "http") a) as [s1|]; [|reflexivity]. cbn [option_map].
  rewrite drop_s_app_stop, after_app_stop by assumption.
  destruct (after lit (drop_s s1)) as [s3|]; [|reflexivity]. cbn [option_map].
  rewrite run_app_stop by assumption. pose proof (run_le path_set s3).
  destruct (run path_set s3) as [|n] eqn:Hn; [reflexivity|]. cbn [option_map fst snd].
  rewrite take_app_le, drop_app_le by lia. reflexivity.
Qed.

Section SubSplit.
Context {St : Type} (lit' : text) (repl : list text -> St -> text * St).

#[local] Abbreviation lit := (":" :: lit').

Hypothesis lit_clean : all_path_chars lit.

Lemma sub_app_stop a e b st :
  path_char e = false ->
  sub (url_nodes lit) repl (a ++ e :: b) st
  = let '(o1, st1) := sub (url_nodes lit) repl a st in
    let '(o2, st2) := sub (url_nodes lit) repl b st1 in
    (o1 ++ e :: o2, st2).
Proof.
  intros He. remember (length a) as n eqn:Hn. revert a st Hn.
  induction n as [n IH] using lt_wf_ind. intros a st ->.
  destruct a as [|c a].
  - cbn [app]. rewrite sub_url_skip, sub_nil.
    + now destruct (sub (url_nodes lit) repl b st).
    + unfold url_match. cbn [str list_ascii_of_string after].
      destruct (Ascii.eqb_spec e "h") as [->|]; [discriminate|reflexivity].
  - pose proof (url_match_app_stop lit (c :: a) (e :: b) lit_clean He) as Hm.
    destruct (url_match lit (c :: a)) as [[path rest]|] eqn:Hca.
    + cbn [option_map fst snd] in Hm.
      rewrite (sub_url_hit lit' repl _ _ _ st Hm).
      rewrite (sub_url_hit lit' repl _ _ _ st Hca).
      destruct (repl [path] st) as [r st1].
      apply url_match_shorter in Hca.
      rewrite (IH (length rest)) by (cbn in *; lia || reflexivity).
      destruct (sub (url_nodes lit) repl rest st1) as [o1 st2].
      destruct (sub (url_nodes lit) repl b st2) as [o2 st3].
      now rewrite <- app_assoc.
    + cbn [option_map] in Hm. cbn [app] in Hm |- *.
      rewrite (sub_url_skip lit' repl _ _ st Hm).
      rewrite (sub_url_skip lit' repl _ _ st Hca).
      rewrite (IH (length a)) by (cbn; lia || reflexivity).
      destruct (sub (url_nodes lit) repl a st) as [o1 st1].
      now destruct (sub (url_nodes lit) repl b st1).
Qed.

End SubSplit.

End ReFacts.

(** ** [parse_repo_string] *)

Module ParseFacts.
Import Re ReSpec ReFacts.

Lemma compile_repo_pattern : compile repo_pattern = Some repo_nodes.
Proof. reflexivity. Qed.

(** The search of [re.match] written out: three maximal runs. *)
Lemma parse_repo_string_runs s :
  parse_repo_string s
  = match run not_slash s, drop (run not_slash s) s with
    | S _, x :: s2 =>
      if Ascii.eqb x "/" then
        match run not_at s2, drop (run not_at s2) s2 with
        | S _, y :: s3 =>
          if Ascii.eqb y "@" then
            match run Dot s3 with
            | S _ => inl (take (run not_slash s) s, take (run not_at s2) s2,
                          take (run Dot s3) s3)
            | 0 => inr BadFormat
            end
          else inr BadFormat
        | _, _ => inr BadFormat
        end
      else inr BadFormat
    | _, _ => inr BadFormat
    end.
Proof.
  unfold parse_repo_string. rewrite compile_repo_pattern. unfold repo_nodes.
  rewrite match_group_lit by reflexivity.
  destruct (run not_slash s) as [|n1] eqn:H1; [reflexivity|].
  destruct (drop (S n1) s) as [|x s2]; [reflexivity|].
  destruct (Ascii.eqb x "/"); [|reflexivity].
  rewrite match_group_lit by reflexivity.
  destruct (run not_at s2) as [|n2] eqn:H2; [reflexivity|].
  destruct (drop (S n2) s2) as [|y s3]; [reflexivity|].
  destruct (Ascii.eqb y "@"); [|reflexivity].
  rewrite match_group_last.
  destruct (run Dot s3) as [|n3] eqn:H3; [reflexivity|].
  cbn [option_map capture fst snd].
  rewrite !(take_run_nonempty _ _ _) by eassumption. reflexivity.
Qed.

Lemma mem_not_in x cs (u : text) :
  (forall c, cset_mem cs c = negb (Ascii.eqb c x)) ->
  Char.mem x u = false <-> Forall (fun c => cset_mem cs c = true) u.
Proof.
  intros Hcs. induction u as [|c u IH]; cbn.
  - split; [constructor|reflexivity].
  - rewrite orb_false_iff, IH, Forall_cons, Hcs, negb_true_iff.
    now rewrite (Ascii.eqb_sym x c).
Qed.

Lemma not_slash_mem c : cset_mem not_slash c = negb (Ascii.eqb c "/").
Proof. cbn. now rewrite orb_false_r. Qed.

Lemma not_at_mem c : cset_mem not_at c = negb (Ascii.eqb c "@").
Proof. cbn. now rewrite orb_false_r. Qed.

Lemma dot_mem c : cset_mem Dot c = negb (Ascii.eqb c nl).
Proof. reflexivity. Qed.

Lemma nonempty_length (u : text) :
  Str.nonempty u = true -> exists n, length u = S n.
Proof. destruct u; [discriminate|]. cbn. eauto. Qed.

(** A text that the parser accepts is read back with these three parts. *)
Lemma accepted_parses s u n b :
  accepted_as s u n b -> parse_repo_string s = inl (u, n, b).
Proof.
  intros (rest & -> & Hu & Hu' & Hn & Hn' & Hb & Hb' & Hrest).
  rewrite parse_repo_string_runs.
  apply (mem_not_in _ _ _ not_slash_mem) in Hu'.
  apply (mem_not_in _ _ _ not_at_mem) in Hn'.
  apply (mem_not_in _ _ _ dot_mem) in Hb'.
  destruct (nonempty_length u Hu) as [k1 Hk1].
  destruct (nonempty_length n Hn) as [k2 Hk2].
  destruct (nonempty_length b Hb) as [k3 Hk3].
  rewrite (run_app not_slash u) by (assumption || reflexivity).
  rewrite drop_app_length, take_app_length, Hk1.
  change (Ascii.eqb "/" "/") with true. cbn iota.
  rewrite (run_app not_at n) by (assumption || reflexivity).
  rewrite drop_app_length, take_app_length, Hk2.
  change (Ascii.eqb "@" "@") with true. cbn iota.
  rewrite (run_app Dot b), take_app_length, Hk3; [reflexivity|assumption|].
  destruct Hrest as [->|[rest' ->]]; [exact I|reflexivity].
Qed.

Lemma parses_accepted s u n b :
  parse_repo_string s = inl (u, n, b) -> accepted_as s u n b.
Proof.
  rewrite parse_repo_string_runs.
  destruct (run not_slash s) as [|k1] eqn:H1; [discriminate|].
  destruct (drop (S k1) s) as [|x s2] eqn:D1; [discriminate|].
  destruct (Ascii.eqb_spec x "/") as [->|]; [|discriminate].
  destruct (run not_at s2) as [|k2] eqn:H2; [discriminate|].
  destruct (drop (S k2) s2) as [|y s3] eqn:D2; [discriminate|].
  destruct (Ascii.eqb_spec y "@") as [->|]; [|discriminate].
  destruct (run Dot s3) as [|k3] eqn:H3; [discriminate|].
  intros [= <- <- <-]. exists (drop (S k3) s3).
  split; [|repeat split].
  - rewrite (take_drop (S k3) s3), <- D2, (take_drop (S k2) s2), <- D1.
    now rewrite take_drop.
  - eapply take_run_nonempty; eassumption.
  - apply (mem_not_in _ _ _ not_slash_mem). rewrite <- H1. apply run_take.
  - eapply take_run_nonempty; eassumption.
  - apply (mem_not_in _ _ _ not_at_mem). rewrite <- H2. apply run_take.
  - eapply take_run_nonempty; eassumption.
  - apply (mem_not_in _ _ _ dot_mem). rewrite <- H3. apply run_take.
  - pose proof (run_drop Dot s3) as Hd. rewrite H3 in Hd.
    destruct (drop (S k3) s3) as [|c rest']; [now left|right].
    exists rest'. rewrite dot_mem in Hd. apply negb_false_iff in Hd.
    now apply Ascii.eqb_eq in Hd as ->.
Qed.

End ParseFacts.

(** ** The substitutions of [replace_links_in_file] *)

Module SubstFacts.
Import Re ReSpec ReFacts.

(** [replacer] only counts: the text it returns does not depend on the
    counter, and the counter grows by the number of matches. *)
Lemma sub_fuel_replacer fuel p d s n :
  sub_fuel fuel p (replacer d) s n
  = (fst (sub_fuel fuel p (replacer d) s 0),
     n + snd (sub_fuel fuel p (replacer d) s 0)).
Proof.
  revert s n. induction fuel as [|fuel IH]; intros s n; cbn [sub_fuel].
  - cbn. f_equal. lia.
  - destruct s as [|c s]; [cbn; f_equal; lia|].
    assert (Hskip :
      (let '(out, st2) := sub_fuel fuel p (replacer d) s n in (c :: out, st2))
      = (fst (let '(out, st2) := sub_fuel fuel p (replacer d) s 0 in (c :: out, st2)),
         n + snd (let '(out, st2) := sub_fuel fuel p (replacer d) s 0 in (c :: out, st2)))).
    { rewrite (IH s n).
      now destruct (sub_fuel fuel p (replacer d) s 0). }
    destruct (match_at p (c :: s)) as [[gs rest]|]; [|exact Hskip].
    destruct (length rest <? length (c :: s))%nat; [|exact Hskip].
    cbn [replacer]. rewrite (IH rest (S n)), (IH rest 1).
    destruct (sub_fuel fuel p (replacer d) rest 0) as [out k]. cbn. f_equal. lia.
Qed.

Lemma sub_replacer p d s n :
  sub p (replacer d) s n = (sub_text p d s, n + sub_count p d s).
Proof. apply sub_fuel_replacer. Qed.

Lemma substitute_eq u r b d s :
  substitute u r b d s = Some (rewritten u r b d s, replacements u r b d s).
Proof.
  unfold substitute, rewritten, replacements.
  rewrite compile_jsdelivr, compile_github_raw.
  rewrite (sub_replacer (jsdelivr_nodes u r b)). cbn [Nat.add].
  now rewrite sub_replacer.
Qed.

Section OnePattern.
Context (lit d : text) (Hcolon : Str.startswith lit [":"] = true).

#[local] Abbreviation pat := (url_nodes lit).

Lemma colon_head : exists lit', lit = ":" :: lit'.
Proof using Hcolon.
  destruct lit as [|c lit']; [discriminate|]. cbn in Hcolon.
  destruct (Ascii.eqb_spec c ":") as [->|]; [eauto|discriminate].
Qed.

Lemma sub_text_nil : sub_text pat d [] = [] /\ sub_count pat d [] = 0.
Proof. split; reflexivity. Qed.

Lemma sub_text_hit s path rest :
  url_match lit s = Some (path, rest) ->
  sub_text pat d s = new_url d path ++ sub_text pat d rest /\
  sub_count pat d s = S (sub_count pat d rest).
Proof using Hcolon.
  destruct colon_head as [lit' ->].
  intros H. unfold sub_text, sub_count.
  rewrite (sub_url_hit lit' (replacer d) s path rest 0 H).
  cbn [replacer nth]. rewrite sub_replacer. cbn. split; reflexivity.
Qed.

Lemma sub_text_skip c s :
  url_match lit (c :: s) = None ->
  sub_text pat d (c :: s) = c :: sub_text pat d s /\
  sub_count pat d (c :: s) = sub_count pat d s.
Proof using Hcolon.
  destruct colon_head as [lit' ->].
  intros H. unfold sub_text, sub_count.
  rewrite (sub_url_skip lit' (replacer d) c s 0 H).
  destruct (sub _ (replacer d) s 0). split; reflexivity.
Qed.

Lemma sub_text_no_match s :
  (forall i, url_match lit (drop i s) = None) ->
  sub_text pat d s = s /\ sub_count pat d s = 0.
Proof using Hcolon.
  destruct colon_head as [lit' ->].
  intros H. unfold sub_text, sub_count. rewrite sub_no_match; [split; reflexivity|].
  intros i. rewrite match_url, H. reflexivity.
Qed.

Lemma sub_text_app_stop a e b :
  all_path_chars lit -> path_char e = false ->
  sub_text pat d (a ++ e :: b) = sub_text pat d a ++ e :: sub_text pat d b /\
  sub_count pat d (a ++ e :: b) = sub_count pat d a + sub_count pat d b.
Proof using Hcolon.
  destruct colon_head as [lit' ->].
  intros Hlit He. unfold sub_text at 1, sub_count at 1.
  rewrite (sub_app_stop lit' (replacer d) Hlit a e b 0 He).
  rewrite (sub_replacer _ d a 0), (sub_replacer _ d b).
  cbn. split; reflexivity.
Qed.

Lemma url_match_link scheme path rest :
  scheme = str "http" \/ scheme = str "https" ->
  path <> [] -> all_path_chars path -> stops rest ->
  url_match lit (scheme ++ lit ++ path ++ rest) = Some (path, rest).
Proof using Hcolon.
  destruct colon_head as [lit' ->]. apply url_match_intro.
Qed.

End OnePattern.

Lemma jsdelivr_lit_clean u r b :
  all_path_chars u -> all_path_chars r -> all_path_chars b ->
  all_path_chars (jsdelivr_lit u r b).
Proof.
  intros Hu Hr Hb. unfold jsdelivr_lit, all_path_chars.
  repeat first [apply Forall_app; split | apply Forall_cons; split
               | assumption | reflexivity | apply Forall_nil].
Qed.

Lemma github_raw_lit_clean u r b :
  all_path_chars u -> all_path_chars r -> all_path_chars b ->
  all_path_chars (github_raw_lit u r b).
Proof.
  intros Hu Hr Hb. unfold github_raw_lit, all_path_chars.
  repeat first [apply Forall_app; split | apply Forall_cons; split
               | assumption | reflexivity | apply Forall_nil].
Qed.

(** Both substitutions work on each side of a character that no path may
    contain, provided the repository reference has no such character. *)
Lemma rewritten_app_stop u r b d a e t :
  all_path_chars u -> all_path_chars r -> all_path_chars b ->
  path_char e = false ->
  rewritten u r b d (a ++ e :: t) = rewritten u r b d a ++ e :: rewritten u r b d t /\
  replacements u r b d (a ++ e :: t)
  = replacements u r b d a + replacements u r b d t.
Proof.
  intros Hu Hr Hb He. unfold rewritten, replacements.
  pose proof (jsdelivr_lit_clean u r b Hu Hr Hb) as H1.
  pose proof (github_raw_lit_clean u r b Hu Hr Hb) as H2.
  unfold jsdelivr_nodes, github_raw_nodes in *.
  destruct (sub_text_app_stop (jsdelivr_lit u r b) d eq_refl a e t H1 He)
    as [-> ->].
  destruct (sub_text_app_stop (github_raw_lit u r b) d eq_refl
              (sub_text (url_nodes (jsdelivr_lit u r b)) d a) e
              (sub_text (url_nodes (jsdelivr_lit u r b)) d t) H2 He) as [-> ->].
  split; [reflexivity|lia].
Qed.

(** *** Text where no link can begin *)

Lemma startswith_after s pre :
  Str.startswith s pre = match after pre s with Some _ => true | None => false end.
Proof.
  revert s. induction pre as [|x pre IH]; intros s; [now destruct s|].
  destruct s as [|c s]; [reflexivity|]. cbn.
  destruct (Ascii.eqb c x); [apply IH|reflexivity].
Qed.

Lemma url_match_needs_http lit s :
  Str.startswith s (str "http") = false -> url_match lit s = None.
Proof.
  rewrite startswith_after. unfold url_match.
  now destruct (after (str "http") s).
Qed.

Section Quiet.
Context (lit d : text) (Hcolon : Str.startswith lit [":"] = true).

#[local] Abbreviation qpat := (url_nodes lit).

Lemma sub_text_no_http s :
  count_http s = 0 -> sub_text qpat d s = s /\ sub_count qpat d s = 0.
Proof using Hcolon.
  induction s as [|c s IH]; [split; reflexivity|].
  cbn [count_http]. intros H.
  destruct (Str.startswith (c :: s) (str "http")) eqn:Hc; [discriminate|].
  destruct (sub_text_skip lit d Hcolon c s (url_match_needs_http _ _ Hc)) as [-> ->].
  destruct (IH H) as [-> ->]. split; reflexivity.
Qed.

End Quiet.

Lemma rewritten_no_http u r b d s :
  count_http s = 0 ->
  rewritten u r b d s = s /\ replacements u r b d s = 0.
Proof.
  intros H. unfold rewritten, replacements, jsdelivr_nodes, github_raw_nodes.
  destruct (sub_text_no_http (jsdelivr_lit u r b) d eq_refl s H) as [-> ->].
  destruct (sub_text_no_http (github_raw_lit u r b) d eq_refl s H) as [-> ->].
  split; reflexivity.
Qed.

(** *** Literals that cannot match *)

Lemma split_at_sep x (a a' t t' : text) :
  Char.mem x a = false -> Char.mem x a' = false ->
  a ++ x :: t = a' ++ x :: t' -> a = a' /\ t = t'.
Proof.
  revert a'. induction a as [|c a IH]; intros [|c' a'] Ha Ha' H; cbn in *.
  - injection H as ->. auto.
  - injection H as <- _. now rewrite Ascii.eqb_refl in Ha'.
  - injection H as -> _. now rewrite Ascii.eqb_refl in Ha.
  - injection H as -> H. apply orb_false_iff in Ha as [_ Ha], Ha' as [_ Ha'].
    destruct (IH a' Ha Ha' H) as [-> ->]. auto.
Qed.

Lemma after_same a t s : after (a ++ t) (a ++ s) = after t s.
Proof.
  induction a as [|c a IH]; [reflexivity|]. cbn. now rewrite Ascii.eqb_refl.
Qed.

Lemma after_other x (a a' t t' : text) :
  Char.mem x a = false -> Char.mem x a' = false -> a <> a' ->
  after (a ++ x :: t) (a' ++ x :: t') = None.
Proof.
  intros Ha Ha' Hne. destruct (after _ _) as [s|] eqn:E; [|reflexivity].
  apply after_Some in E. rewrite <- app_assoc in E. cbn [app] in E.
  destruct (split_at_sep x a' a _ _ Ha' Ha E) as [-> _]. contradiction.
Qed.

Lemma sep_free_spec s :
  sep_free s = true -> Char.mem "/" s = false /\ Char.mem "@" s = false.
Proof.
  unfold sep_free. rewrite andb_true_iff, !negb_true_iff. tauto.
Qed.

(** A link of another repository does not begin with the literal of the
    configured one, when no part contains a separator. *)
Lemma jsdelivr_other U R B u r b t :
  sep_free U = true -> sep_free R = true -> sep_free B = true ->
  sep_free u = true -> sep_free r = true -> sep_free b = true ->
  (u, r, b) <> (U, R, B) ->
  after (jsdelivr_lit U R B) (jsdelivr_lit u r b ++ t) = None.
Proof.
  intros HU HR HB Hu Hr Hb Hne.
  apply sep_free_spec in HU as [HU _], HR as [_ HR], HB as [HB _].
  apply sep_free_spec in Hu as [Hu _], Hr as [_ Hr], Hb as [Hb _].
  unfold jsdelivr_lit. rewrite <- !app_assoc. rewrite after_same.
  cbn [app]. rewrite <- !app_assoc. cbn [app].
  destruct (decide (u = U)) as [->|Hd]; [|now apply after_other].
  rewrite after_same. cbn [after]. rewrite Ascii.eqb_refl.
  destruct (decide (r = R)) as [->|Hd]; [|now apply after_other].
  rewrite after_same. cbn [after]. rewrite Ascii.eqb_refl.
  rewrite <- ?app_assoc. cbn [app].
  destruct (decide (b = B)) as [->|Hd]; [congruence|now apply after_other].
Qed.

Lemma github_raw_other U R B u r b t :
  sep_free U = true -> sep_free R = true -> sep_free B = true ->
  sep_free u = true -> sep_free r = true -> sep_free b = true ->
  (u, r, b) <> (U, R, B) ->
  after (github_raw_lit U R B) (github_raw_lit u r b ++ t) = None.
Proof.
  intros HU HR HB Hu Hr Hb Hne.
  apply sep_free_spec in HU as [HU _], HR as [HR _], HB as [HB _].
  apply sep_free_spec in Hu as [Hu _], Hr as [Hr _], Hb as [Hb _].
  unfold github_raw_lit. rewrite <- !app_assoc. rewrite after_same.
  cbn [app]. rewrite <- !app_assoc. cbn [app].
  destruct (decide (u = U)) as [->|Hd]; [|now apply after_other].
  rewrite after_same. cbn [after]. rewrite Ascii.eqb_refl.
  destruct (decide (r = R)) as [->|Hd]; [|now apply after_other].
  rewrite after_same. cbn [after]. rewrite Ascii.eqb_refl.
  rewrite <- ?app_assoc. cbn [app].
  destruct (decide (b = B)) as [->|Hd]; [congruence|now apply after_other].
Qed.

(** What [url_match] computes on a text that begins with a scheme. *)
Lemma url_match_scheme lit scheme t :
  scheme = str "http" \/ scheme = str "https" ->
  Str.startswith t [":"] = true ->
  url_match lit (scheme ++ t)
  = match after lit t with
    | None => None
    | Some s3 =>
      match run path_set s3 with
      | 0 => None
      | S _ => Some (take (run path_set s3) s3, drop (run path_set s3) s3)
      end
    end.
Proof.
  intros Hs Ht. destruct t as [|c t]; [discriminate|]. cbn [Str.startswith] in Ht.
  destruct (Ascii.eqb_spec c ":") as [->|]; [|discriminate].
  destruct Hs as [-> | ->]; reflexivity.
Qed.

(** *** A second pass *)

Lemma str_eqb_eq a b : Str.eqb a b = true <-> a = b.
Proof.
  revert b. induction a as [|x a IH]; intros [|y b]; cbn; try (split; congruence).
  rewrite andb_true_iff, IH, Ascii.eqb_eq. split; [intros [-> ->]|intros [= -> ->]]; auto.
Qed.

Section Context.
Context (u r b d : text).
Hypothesis (Hu : all_path_chars u) (Hr : all_path_chars r) (Hb : all_path_chars b).

#[local] Abbreviation R := (rewritten u r b d).
#[local] Abbreviation N := (replacements u r b d).

Lemma rewritten_stops_r m post :
  stops post -> R (m ++ post) = R m ++ R post /\ N (m ++ post) = N m + N post.
Proof using Hu Hr Hb.
  intros Hp. destruct post as [|e t].
  - rewrite app_nil_r. change (R []) with (@nil ascii). change (N []) with 0.
    rewrite app_nil_r. split; [reflexivity|lia].
  - destruct (rewritten_app_stop u r b d m e t Hu Hr Hb Hp) as [-> ->].
    destruct (rewritten_app_stop u r b d [] e t Hu Hr Hb Hp) as [H1 H2].
    cbn [app] in H1, H2. rewrite H1, H2.
    change (R []) with (@nil ascii). change (N []) with 0. split; reflexivity.
Qed.

Lemma rewritten_stops_l pre m :
  stopped_before pre -> R (pre ++ m) = R pre ++ R m /\ N (pre ++ m) = N pre + N m.
Proof using Hu Hr Hb.
  intros Hp. destruct pre as [|e a _] using rev_ind.
  - split; reflexivity.
  - unfold stopped_before in Hp. rewrite rev_unit in Hp. cbn in Hp.
    rewrite <- app_assoc. cbn [app].
    destruct (rewritten_app_stop u r b d a e m Hu Hr Hb Hp) as [-> ->].
    destruct (rewritten_app_stop u r b d a e [] Hu Hr Hb Hp) as [-> ->].
    change (R []) with (@nil ascii). change (N []) with 0.
    rewrite <- app_assoc. split; [reflexivity|lia].
Qed.

Lemma rewritten_between pre m post :
  stopped_before pre -> stops post ->
  R (pre ++ m ++ post) = R pre ++ R m ++ R post /\
  N (pre ++ m ++ post) = N pre + N m + N post.
Proof using Hu Hr Hb.
  intros Hpre Hpost.
  destruct (rewritten_stops_l pre (m ++ post) Hpre) as [-> ->].
  destruct (rewritten_stops_r m post Hpost) as [-> ->]. split; [reflexivity|lia].
Qed.

End Context.

End SubstFacts.

(** ** Files and the run *)

Module RunFacts.
Import Re ReSpec ReFacts SubstFacts.

Lemma endswith_spec s suf :
  Str.endswith s suf = true <-> exists pre, s = pre ++ suf.
Proof.
  unfold Str.endswith. rewrite startswith_after. split.
  - destruct (after (rev suf) (rev s)) as [t|] eqn:E; [|discriminate].
    intros _. apply after_Some in E. exists (rev t).
    rewrite <- (rev_involutive s), E, rev_app_distr, rev_involutive. reflexivity.
  - intros [pre ->]. rewrite rev_app_distr, after_app. reflexivity.
Qed.

(** The lowered name ends with [e] exactly when a suffix of the name is [e]
    once lowered. *)
Lemma lower_endswith name e :
  Str.endswith (Str.lower name) e = true
  <-> exists pre suf, name = pre ++ suf /\ Str.lower suf = e.
Proof.
  rewrite endswith_spec. unfold Str.lower. split.
  - intros [pre H].
    assert (Hlen : length pre <= length name).
    { apply (f_equal (@length ascii)) in H.
      rewrite length_map, length_app in H. lia. }
    exists (take (length pre) name), (drop (length pre) name).
    split; [now rewrite take_drop|].
    rewrite <- (take_drop (length pre) name), map_app in H.
    apply app_inj_1 in H as [_ H]; [exact H|].
    rewrite length_map, length_take. lia.
  - intros (pre & suf & -> & <-). exists (map Char.lower pre). apply map_app.
Qed.

Lemma selected_spec exts name :
  selected (parse_extensions exts) name = true
  <-> exists ext,
        In ext (Str.split "," exts) /\ Str.strip ext <> [] /\
        exists pre suf, name = pre ++ suf /\
                        Str.lower suf = Str.lower (Str.strip ext).
Proof.
  unfold selected, Str.endswith_any, parse_extensions.
  rewrite existsb_exists. split.
  - intros (e & He & Hend). apply in_map_iff in He as (ext & <- & Hext).
    apply filter_In in Hext as [Hin Hne]. exists ext.
    split; [exact Hin|]. split; [now destruct (Str.strip ext)|].
    now apply lower_endswith.
  - intros (ext & Hin & Hne & Hsuf). exists (Str.lower (Str.strip ext)).
    split; [|now apply lower_endswith].
    apply in_map_iff. exists ext. split; [reflexivity|].
    apply filter_In. split; [exact Hin|]. now destruct (Str.strip ext).
Qed.

(** *** [replace_links_in_file], case by case *)

Lemma replace_links_in_file_cases p u r b d w :
  match files w !! p with
  | None =>
    replace_links_in_file p u r b d w
    = (0, print (OutNotFound p) (log (EvOpenRead p) w))
  | Some f =>
    match read_fault f with
    | Some e =>
      replace_links_in_file p u r b d w
      = (0, print (report p e) (log (EvOpenRead p) w))
    | None =>
      let out := rewritten u r b d (contents f) in
      let n := replacements u r b d (contents f) in
      if Str.eqb out (contents f) then
        replace_links_in_file p u r b d w = (n, log (EvOpenRead p) w)
      else
        match write_fault f with
        | Some e =>
          replace_links_in_file p u r b d w
          = (n, print (report p e) (log (EvOpenWrite p) (log (EvOpenRead p) w)))
        | None =>
          replace_links_in_file p u r b d w
          = (n, print (OutReplaced n)
                  (World (<[p := File (universal_newlines out) None None]>
                            (files w)) (dirs w)
                         (events w ++ [EvOpenRead p] ++ [EvOpenWrite p])
                         (stdout w) (stderr w)))
        end
    end
  end.
Proof.
  unfold replace_links_in_file, read_file.
  destruct (files w !! p) as [f|] eqn:Hf; [|reflexivity].
  destruct (read_fault f) as [e|] eqn:Hr; [reflexivity|].
  rewrite substitute_eq. cbn zeta.
  destruct (Str.eqb _ _); [reflexivity|].
  unfold write_file. cbn [files log]. rewrite Hf.
  destruct (write_fault f) as [e|] eqn:Hw; [reflexivity|].
  cbn. rewrite Hr, <- app_assoc. reflexivity.
Qed.

(** The files after the call: untouched, or one changed file written. *)
Lemma replace_links_in_file_files p u r b d w :
  files (snd (replace_links_in_file p u r b d w)) = files w \/
  exists f,
    files w !! p = Some f /\
    rewritten u r b d (contents f) <> contents f /\
    files (snd (replace_links_in_file p u r b d w))
    = <[p := File (universal_newlines (rewritten u r b d (contents f))) None None]>
        (files w).
Proof.
  pose proof (replace_links_in_file_cases p u r b d w) as H.
  destruct (files w !! p) as [f|] eqn:Hf; [|rewrite H; now left].
  destruct (read_fault f) as [e|]; [rewrite H; now left|]. cbn zeta in H.
  destruct (Str.eqb _ _) eqn:He; [rewrite H; now left|].
  destruct (write_fault f) as [e|]; [rewrite H; now left|].
  right. exists f. rewrite H. repeat split.
  intros E. apply str_eqb_eq in E. congruence.
Qed.

Lemma replace_links_in_file_frame p u r b d w q f :
  files w !! q = Some f ->
  rewritten u r b d (contents f) = contents f ->
  files (snd (replace_links_in_file p u r b d w)) !! q = Some f.
Proof.
  intros Hq Hsame.
  destruct (replace_links_in_file_files p u r b d w) as [->|(g & Hg & Hne & ->)];
    [exact Hq|].
  destruct (decide (p = q)) as [->|Hpq].
  - rewrite Hq in Hg. injection Hg as <-. contradiction.
  - now rewrite lookup_insert_ne.
Qed.

(** A text that changed was counted. *)
Lemma sub_count_zero lit d s :
  Str.startswith lit [":"] = true ->
  sub_count (url_nodes lit) d s = 0 -> sub_text (url_nodes lit) d s = s.
Proof.
  intros Hl. induction s as [|c s IH]; [reflexivity|].
  destruct (url_match lit (c :: s)) as [[path rest]|] eqn:Hm.
  - destruct (sub_text_hit lit d Hl _ _ _ Hm) as [_ ->]. discriminate.
  - destruct (sub_text_skip lit d Hl _ _ Hm) as [-> ->]. intros H. now rewrite IH.
Qed.

Lemma replacements_zero u r b d s :
  replacements u r b d s = 0 -> rewritten u r b d s = s.
Proof.
  unfold replacements, rewritten, jsdelivr_nodes, github_raw_nodes. intros H.
  assert (H1 : sub_count (url_nodes (jsdelivr_lit u r b)) d s = 0) by lia.
  apply (sub_count_zero (jsdelivr_lit u r b) d s eq_refl) in H1. rewrite H1 in *.
  apply (sub_count_zero (github_raw_lit u r b) d s eq_refl). lia.
Qed.

(** A failure while reading leaves the counter at zero. *)
Lemma read_failure_not_counted p u r b d w :
  files w !! p = None \/
  (exists f e, files w !! p = Some f /\ read_fault f = Some e) ->
  fst (replace_links_in_file p u r b d w) = 0 /\
  files (snd (replace_links_in_file p u r b d w)) = files w.
Proof.
  intros H. pose proof (replace_links_in_file_cases p u r b d w) as Hc.
  destruct H as [H|(f & e & H & He)]; rewrite H in Hc; [|rewrite He in Hc];
    rewrite Hc; split; reflexivity.
Qed.

(** A failure while writing does not: the counter was raised before. *)
Lemma write_failure_counted p u r b d w f e :
  files w !! p = Some f -> read_fault f = None -> write_fault f = Some e ->
  rewritten u r b d (contents f) <> contents f ->
  replace_links_in_file p u r b d w
  = (replacements u r b d (contents f),
     print (report p e) (log (EvOpenWrite p) (log (EvOpenRead p) w))) /\
  0 < replacements u r b d (contents f).
Proof.
  intros Hf Hr Hw Hne. pose proof (replace_links_in_file_cases p u r b d w) as Hc.
  rewrite Hf, Hr, Hw in Hc. cbn zeta in Hc.
  destruct (Str.eqb _ _) eqn:E; [apply str_eqb_eq in E; contradiction|].
  split; [exact Hc|].
  destruct (replacements u r b d (contents f)) eqn:Hn; [|lia].
  apply replacements_zero in Hn. contradiction.
Qed.

(** *** Loops *)

Lemma fold_left_inv {A B} (P : A -> Prop) (f : A -> B -> A) l a :
  (forall a x, P a -> P (f a x)) -> P a -> P (fold_left f l a).
Proof.
  intros Hf. revert a. induction l as [|x l IH]; intros a Ha; [exact Ha|].
  cbn. apply IH, Hf, Ha.
Qed.

Lemma process_file_frame u r b d exts root st filename q f :
  files (the_world st) !! q = Some f ->
  rewritten u r b d (contents f) = contents f ->
  files (the_world (process_file u r b d exts root st filename)) !! q = Some f.
Proof.
  intros Hq Hsame. unfold process_file.
  destruct (selected exts filename); [|exact Hq].
  pose proof (replace_links_in_file_frame (Str.path_join root filename) u r b d
                (print (OutProcessing (Str.path_join root filename)) (the_world st))
                q f Hq Hsame) as H.
  destruct (replace_links_in_file _ _ _ _ _ _) as [count w2]. exact H.
Qed.

Lemma main_frame a w q f :
  files w !! q = Some f ->
  (forall u r b, parse_repo_string (repo a) = inl (u, r, b) ->
                 rewritten u r b (domain a) (contents f) = contents f) ->
  files (snd (main a w)) !! q = Some f.
Proof.
  intros Hq Hsame. unfold main.
  destruct (parse_repo_string (repo a)) as [[[u r] b]|e]; [|exact Hq].
  specialize (Hsame u r b eq_refl).
  destruct (parse_extensions (extensions a)) as [|e exts]; [exact Hq|].
  unfold os_walk, summary. cbn [files dirs log print].
  set (step := process_dir u r b (domain a) (e :: exts)).
  assert (Hstep : forall st entry,
            files (the_world st) !! q = Some f ->
            files (the_world (step st entry)) !! q = Some f).
  { intros st entry Hst. unfold step, process_dir.
    apply (fold_left_inv (fun st => files (the_world st) !! q = Some f)); [|exact Hst].
    intros st' x Hst'. now apply process_file_frame. }
  destruct (dirs w !! directory a) as [t|];
    cbn [snd];
    match goal with
    | |- context [fold_left step ?l ?st0] =>
      pose proof (fold_left_inv (fun st => files (the_world st) !! q = Some f)
                    step l st0 Hstep Hq) as H;
      destruct (total_files_processed (fold_left step l st0) =? 0)%nat;
      cbn [files print]; exact H
    end.
Qed.

End RunFacts.

(** ** The loops of [main] *)

Module WalkFacts.
Import Re ReSpec ReFacts SubstFacts RunFacts.

Lemma fold_left_acc {A B C} (f : A -> B -> A) (m : A -> list C)
    (g : B -> list C) l a :
  (forall a x, m (f a x) = m a ++ g x) ->
  m (fold_left f l a) = m a ++ flat_map g l.
Proof.
  intros Hf. revert a. induction l as [|x l IH]; intros a; cbn.
  - now rewrite app_nil_r.
  - now rewrite IH, Hf, <- app_assoc.
Qed.

Lemma flat_map_filter {A B} (P : A -> bool) (h : A -> B) l :
  flat_map (fun x => if P x then [h x] else []) l = map h (List.filter P l).
Proof.
  induction l as [|x l IH]; [reflexivity|]. cbn.
  destruct (P x); cbn; now rewrite IH.
Qed.

Lemma reads_app a b : reads (a ++ b) = reads a ++ reads b.
Proof. apply flat_map_app. Qed.

Lemma opens_app a b : opens (a ++ b) = opens a ++ opens b.
Proof. apply flat_map_app. Qed.

(** The file system calls of one call: one open for reading, then possibly
    one for writing, of the same path. *)
Lemma replace_links_in_file_events p u r b d w :
  events (snd (replace_links_in_file p u r b d w)) = events w ++ [EvOpenRead p] \/
  events (snd (replace_links_in_file p u r b d w))
  = events w ++ [EvOpenRead p] ++ [EvOpenWrite p].
Proof.
  pose proof (replace_links_in_file_cases p u r b d w) as H.
  destruct (files w !! p) as [f|]; [|rewrite H; now left].
  destruct (read_fault f); [rewrite H; now left|]. cbn zeta in H.
  destruct (Str.eqb _ _); [rewrite H; now left|].
  destruct (write_fault f); rewrite H; right; cbn; now rewrite <- ?app_assoc.
Qed.

Section Loop.
Context (u r b d : text) (exts : list text).

Lemma process_file_reads root st filename :
  reads (events (the_world (process_file u r b d exts root st filename)))
  = reads (events (the_world st))
      ++ (if selected exts filename then [Str.path_join root filename] else []).
Proof.
  unfold process_file. destruct (selected exts filename); [|now rewrite app_nil_r].
  pose proof (replace_links_in_file_events (Str.path_join root filename) u r b d
                (print (OutProcessing (Str.path_join root filename)) (the_world st)))
    as H.
  destruct (replace_links_in_file _ _ _ _ _ _) as [count w2]. cbn [snd the_world] in *.
  destruct H as [-> | ->]; rewrite ?reads_app; cbn; now rewrite ?app_nil_r.
Qed.

Lemma process_dir_reads st entry :
  reads (events (the_world (process_dir u r b d exts st entry)))
  = reads (events (the_world st))
      ++ map (Str.path_join (fst entry)) (List.filter (selected exts) (snd entry)).
Proof.
  unfold process_dir.
  rewrite (fold_left_acc _ (fun st => reads (events (the_world st)))
             (fun filename =>
                if selected exts filename then [Str.path_join (fst entry) filename]
                else [])).
  - now rewrite flat_map_filter.
  - intros st' x. apply process_file_reads.
Qed.

Lemma run_reads entries st :
  reads (events (the_world (fold_left (process_dir u r b d exts) entries st)))
  = reads (events (the_world st)) ++ selected_paths exts entries.
Proof.
  apply (fold_left_acc _ (fun st => reads (events (the_world st)))).
  intros st' x. apply process_dir_reads.
Qed.

Lemma process_file_counted n0 root st filename :
  counted n0 st -> counted n0 (process_file u r b d exts root st filename).
Proof.
  unfold counted. intros H. rewrite process_file_reads, length_app, H.
  unfold process_file. destruct (selected exts filename); [|cbn; lia].
  destruct (replace_links_in_file _ _ _ _ _ _) as [count w2]. cbn. lia.
Qed.

Lemma run_counted n0 entries st :
  counted n0 st ->
  counted n0 (fold_left (process_dir u r b d exts) entries st).
Proof.
  apply fold_left_inv. intros st' entry. unfold process_dir.
  apply fold_left_inv. intros st'' x. apply process_file_counted.
Qed.

Lemma process_file_read_first evs0 root st filename :
  read_first evs0 st -> read_first evs0 (process_file u r b d exts root st filename).
Proof.
  unfold read_first. intros H q. rewrite process_file_reads.
  unfold process_file. destruct (selected exts filename).
  - pose proof (replace_links_in_file_events (Str.path_join root filename) u r b d
                  (print (OutProcessing (Str.path_join root filename)) (the_world st)))
      as He.
    destruct (replace_links_in_file _ _ _ _ _ _) as [count w2].
    cbn [snd the_world events print] in *.
    destruct He as [-> | ->]; rewrite ?opens_app; cbn; rewrite ?in_app_iff; cbn;
      intros Hq; destruct Hq as [Hq|Hq];
      try (destruct (H q Hq); tauto); tauto.
  - rewrite app_nil_r. apply H.
Qed.

Lemma run_read_first evs0 entries st :
  read_first evs0 st ->
  read_first evs0 (fold_left (process_dir u r b d exts) entries st).
Proof.
  apply fold_left_inv. intros st' entry. unfold process_dir.
  apply fold_left_inv. intros st'' x. apply process_file_read_first.
Qed.

Lemma process_file_same_files fs root st filename :
  same_files fs st -> same_files fs (process_file u r b d exts root st filename).
Proof.
  unfold same_files. intros H q. unfold process_file.
  destruct (selected exts filename); [|apply H].
  pose proof (replace_links_in_file_files (Str.path_join root filename) u r b d
                (print (OutProcessing (Str.path_join root filename)) (the_world st)))
    as Hf.
  destruct (replace_links_in_file _ _ _ _ _ _) as [count w2].
  cbn [snd the_world files print] in *.
  destruct Hf as [->|(f & Hp & _ & ->)]; [apply H|].
  rewrite lookup_insert_None, <- H. split; [tauto|].
  intros Hq. split; [exact Hq|]. intros <-. congruence.
Qed.

Lemma run_same_files fs entries st :
  same_files fs st ->
  same_files fs (fold_left (process_dir u r b d exts) entries st).
Proof.
  apply fold_left_inv. intros st' entry. unfold process_dir.
  apply fold_left_inv. intros st'' x. apply process_file_same_files.
Qed.

End Loop.

(** *** The extension list *)

Lemma lstrip_nil s : Str.lstrip s = [] <-> forallb Char.isspace s = true.
Proof.
  induction s as [|c s IH]; cbn; [tauto|].
  destruct (Char.isspace c); cbn; [exact IH|]. split; discriminate.
Qed.

Lemma forallb_rev {A} (P : A -> bool) l : forallb P (rev l) = forallb P l.
Proof.
  induction l as [|x l IH]; [reflexivity|]. cbn.
  rewrite forallb_app, IH. cbn. rewrite andb_true_r. apply andb_comm.
Qed.

Lemma strip_nil s : Str.strip s = [] <-> forallb Char.isspace s = true.
Proof.
  unfold Str.strip, Str.rstrip. split.
  - intros H. apply (f_equal (@rev ascii)) in H. rewrite rev_involutive in H.
    cbn in H. apply lstrip_nil in H. rewrite forallb_rev in H.
    destruct (Str.lstrip s) as [|c t] eqn:E; [now apply lstrip_nil|].
    exfalso. destruct s as [|x s]; [discriminate|].
    revert E H. clear. revert c t. induction (x :: s) as [|y l IH]; intros c t E H;
      [discriminate|].
    cbn in E. destruct (Char.isspace y) eqn:Hy; [now apply (IH c t)|].
    injection E as <- <-. cbn in H. now rewrite Hy in H.
  - intros H. apply lstrip_nil in H. now rewrite H.
Qed.

Lemma split_blank s :
  forallb blank s
  = forallb (fun piece => forallb Char.isspace piece) (Str.split "," s).
Proof.
  induction s as [|c s IH]; [reflexivity|]. cbn [forallb Str.split].
  unfold blank at 1. destruct (Ascii.eqb c ",") eqn:Hc.
  - cbn. exact IH.
  - rewrite IH. destruct (Str.split "," s) as [|piece pieces]; cbn.
    + now rewrite !andb_true_r.
    + now rewrite andb_assoc.
Qed.

Lemma parse_extensions_nil s :
  parse_extensions s = [] <-> forallb blank s = true.
Proof.
  unfold parse_extensions. rewrite split_blank.
  induction (Str.split "," s) as [|piece pieces IH]; cbn; [tauto|].
  destruct (Str.strip piece) as [|c t] eqn:E; cbn.
  - apply strip_nil in E. rewrite E. exact IH.
  - assert (H : forallb Char.isspace piece = false).
    { destruct (forallb Char.isspace piece) eqn:F; [|reflexivity].
      apply strip_nil in F. congruence. }
    rewrite H. cbn. split; discriminate.
Qed.

End WalkFacts.

(** ** Which files a run processes *)

Module ProcessFacts.
Import RunFacts WalkFacts.

Lemma replace_links_in_file_stdout p u r b d w :
  exists lines,
    stdout (snd (replace_links_in_file p u r b d w)) = stdout w ++ lines.
Proof.
  pose proof (replace_links_in_file_cases p u r b d w) as H.
  destruct (files w !! p) as [f|]; [|rewrite H; now eexists].
  destruct (read_fault f); [rewrite H; now eexists|]. cbn zeta in H.
  destruct (Str.eqb _ _); [rewrite H; exists []; cbn; now rewrite app_nil_r|].
  destruct (write_fault f); rewrite H; now eexists.
Qed.

Lemma in_selected_paths exts entries q :
  In q (selected_paths exts entries)
  <-> exists root names name,
        In (root, names) entries /\ In name names /\
        selected exts name = true /\ q = Str.path_join root name.
Proof.
  unfold selected_paths. rewrite in_flat_map. split.
  - intros ([root names] & Hin & Hq). cbn [fst snd] in Hq.
    apply in_map_iff in Hq as (name & <- & Hn).
    apply filter_In in Hn as [Hn Hs]. now exists root, names, name.
  - intros (root & names & name & Hin & Hn & Hs & ->).
    exists (root, names). split; [exact Hin|]. cbn [fst snd].
    apply in_map_iff. exists name. split; [reflexivity|].
    apply filter_In. now split.
Qed.

Lemma main_reads a w u r b :
  parse_repo_string (repo a) = inl (u, r, b) ->
  parse_extensions (extensions a) <> [] ->
  reads (events (snd (main a w)))
  = reads (events w)
      ++ selected_paths (parse_extensions (extensions a))
           (fst (os_walk (directory a) w)).
Proof.
  intros Hp He. unfold main. rewrite Hp.
  destruct (parse_extensions (extensions a)) as [|x exts] eqn:Hx; [contradiction|].
  set (banner := OutBanner (repo a) (domain a) (directory a) (x :: exts)).
  assert (Hw : fst (os_walk (directory a) (print banner w))
               = fst (os_walk (directory a) w))
    by (unfold os_walk; cbn [dirs print]; now destruct (dirs w !! directory a)).
  destruct (os_walk (directory a) (print banner w)) as [entries w2] eqn:Hwalk.
  assert (Hev : events w2 = events w ++ [EvWalk (directory a)]).
  { unfold os_walk in Hwalk. cbn [dirs print] in Hwalk.
    destruct (dirs w !! directory a); injection Hwalk as _ <-; reflexivity. }
  cbn [fst] in Hw. rewrite <- Hw. cbn [snd].
  assert (Hse : forall st, events (summary (x :: exts) (directory a) st)
                           = events (the_world st)).
  { intros st. unfold summary. now destruct (_ =? _)%nat. }
  rewrite Hse, run_reads. cbn [the_world]. rewrite Hev, reads_app. cbn.
  now rewrite app_nil_r.
Qed.

End ProcessFacts.

(** ** Positions where links begin *)

Module LinkFacts.
Import Re ReSpec ReFacts SubstFacts.

Section OneShape.
Context (lit d : text) (Hcolon : Str.startswith lit [":"] = true).

#[local] Abbreviation spat := (url_nodes lit).

Lemma sub_text_unmatched q w :
  no_link_start lit q w = true ->
  sub_text spat d (q ++ w) = q ++ sub_text spat d w /\
  sub_count spat d (q ++ w) = sub_count spat d w.
Proof.
  induction q as [|c q IH]; [now split|].
  cbn [no_link_start]. intros H. apply andb_prop in H as [Hm Hq].
  unfold link_at in Hm. cbn [app] in *.
  destruct (url_match lit (c :: q ++ w)) eqn:E; [discriminate|].
  destruct (sub_text_skip lit d Hcolon c (q ++ w) E) as [-> ->].
  destruct (IH Hq) as [-> ->]. now split.
Qed.

Lemma no_link_start_split q w :
  no_link_start lit q w = false ->
  exists a m, q = a ++ m /\ m <> [] /\
              no_link_start lit a (m ++ w) = true /\
              link_at lit (m ++ w) = true.
Proof.
  induction q as [|c q IH]; [discriminate|].
  cbn [no_link_start]. intros H.
  destruct (link_at lit ((c :: q) ++ w)) eqn:E.
  - exists [], (c :: q). repeat split; [discriminate|exact E].
  - cbn [negb andb] in H. destruct (IH H) as (a & m & -> & Hm & Ha & Hl).
    exists (c :: a), m. repeat split; [exact Hm| |exact Hl].
    cbn [no_link_start app]. cbn [app] in E. rewrite <- app_assoc in E.
    rewrite E. exact Ha.
Qed.

Lemma sub_count_zero_iff s :
  sub_count spat d s = 0 <-> no_link_start lit s [] = true.
Proof.
  split.
  - intros H. destruct (no_link_start lit s []) eqn:E; [reflexivity|].
    destruct (no_link_start_split s [] E) as (a & m & -> & _ & Ha & Hl).
    rewrite app_nil_r in Ha, Hl.
    destruct (sub_text_unmatched a m Ha) as [_ Hc]. rewrite Hc in H.
    unfold link_at in Hl. destruct (url_match lit m) as [[path rest]|] eqn:Em;
      [|discriminate].
    destruct (sub_text_hit lit d Hcolon m path rest Em) as [_ Hn].
    rewrite Hn in H. discriminate.
  - intros H. destruct (sub_text_unmatched s [] H) as [_ Hc].
    rewrite app_nil_r in Hc. rewrite Hc.
    apply (sub_text_nil lit d).
Qed.

Lemma sub_text_free s :
  no_link_start lit s [] = true -> sub_text spat d s = s.
Proof.
  intros H. destruct (sub_text_unmatched s [] H) as [Ht _].
  rewrite app_nil_r in Ht. rewrite Ht.
  destruct (sub_text_nil lit d) as [-> _]. now rewrite app_nil_r.
Qed.

End OneShape.

Lemma mem_In c (l : text) : Char.mem c l = true <-> In c l.
Proof.
  unfold Char.mem. rewrite existsb_exists. split.
  - intros (x & Hx & E). apply Ascii.eqb_eq in E. now subst.
  - intros H. exists c. split; [exact H|apply Ascii.eqb_refl].
Qed.

Lemma not_mem_In c (l : text) : Char.mem c l = false -> ~ In c l.
Proof. intros H Hin. apply mem_In in Hin. congruence. Qed.

Lemma startswith_prefix s pre :
  Str.startswith s pre = true -> exists t, s = pre ++ t.
Proof.
  revert s. induction pre as [|x pre IH]; intros s H; [now exists s|].
  destruct s as [|c s]; [discriminate|]. cbn in H. apply andb_prop in H as [E H].
  apply Ascii.eqb_eq in E. subst. destruct (IH s H) as [t ->]. now exists t.
Qed.

(** After the scheme and the literal, one path character is enough. *)
Lemma link_at_path_char lit0 sch c x :
  sch = str "http" \/ sch = str "https" -> path_char c = true ->
  link_at (":" :: lit0) (sch ++ (":" :: lit0) ++ c :: x) = true.
Proof.
  intros Hs Hc. unfold link_at.
  assert (Hn : exists n, run path_set (c :: x) = S n).
  { cbn [run]. rewrite path_set_mem, Hc. now eexists. }
  destruct Hn as [n Hn].
  pose proof (url_match_intro lit0 sch (take (run path_set (c :: x)) (c :: x))
                (drop (run path_set (c :: x)) (c :: x)) Hs) as H.
  rewrite take_drop in H. rewrite H; [reflexivity| |apply path_run_take|apply path_run_drop].
  rewrite Hn. discriminate.
Qed.

(** A link that begins before [M] in [a ++ M] does not depend on what
    follows the first character of [M], when the literal has one colon:
    replacing [M] by a text that begins with [https:] brings no new link
    start before it. *)
Lemma link_at_transfer lit0 a M N :
  Char.mem ":" lit0 = false ->
  (exists l0, lit0 = l0 ++ ["/"]) ->
  a <> [] ->
  Str.startswith M ["h"] = true ->
  Str.startswith N (str "http:") = true \/ Str.startswith N (str "https:") = true ->
  link_at (":" :: lit0) (a ++ M) = false ->
  link_at (":" :: lit0) (a ++ N) = false.
Proof.
  intros Hcol [l0 Hl0] Ha HM HN H.
  assert (Hhp : exists hp t N', N = hp ++ N' /\ hp = "h" :: t /\
                                In ":" hp /\ ~ In "/" hp).
  { destruct HN as [HN|HN]; apply startswith_prefix in HN as [N' ->].
    - exists (str "http:"), (str "ttp:"), N'. repeat split; cbn; [tauto|].
      intuition discriminate.
    - exists (str "https:"), (str "ttps:"), N'. repeat split; cbn; [tauto|].
      intuition discriminate. }
  clear HN. destruct Hhp as (hp & hp' & N' & -> & Hhp & Hcolon & Hnoslash).
  destruct (link_at (":" :: lit0) (a ++ hp ++ N')) eqn:E; [|reflexivity]. exfalso.
  unfold link_at in E.
  destruct (url_match (":" :: lit0) (a ++ hp ++ N')) as [[p rest]|] eqn:Em;
    [|discriminate].
  apply url_match_inv in Em as (sch & Hsch & Heq & Hp & Hall & Hstop).
  apply startswith_prefix in HM as [M' ->].
  assert (Hh : path_char "h" = true) by reflexivity.
  assert (Hfull : forall l, a = sch ++ (":" :: lit0) ++ l ->
                            p ++ rest = l ++ hp ++ N' -> False).
  { intros l -> Hl.
    assert (Hre : (sch ++ (":" :: lit0) ++ l) ++ ["h"] ++ M'
                  = sch ++ (":" :: lit0) ++ (l ++ "h" :: M'))
      by now rewrite <- !app_assoc.
    rewrite Hre in H. destruct l as [|c l].
    - change ([] ++ "h" :: M') with ("h" :: M') in H.
      now rewrite (link_at_path_char lit0 sch "h" M' Hsch Hh) in H.
    - destruct p as [|c' p]; [contradiction|]. cbn [app] in Hl.
      injection Hl as -> Hl. apply Forall_inv in Hall.
      change ((c :: l) ++ "h" :: M') with (c :: (l ++ "h" :: M')) in H.
      now rewrite (link_at_path_char lit0 sch c _ Hsch Hall) in H. }
  rewrite (app_assoc sch) in Heq.
  apply app_eq_app in Heq as [l [[Ha' Hr]|[HP HN]]].
  { apply (Hfull l); [now rewrite Ha', <- app_assoc|exact Hr]. }
  destruct l as [|x l].
  { rewrite app_nil_r in HP. cbn [app] in HN.
    apply (Hfull []); [now rewrite app_nil_r, <- HP|now rewrite HN]. }
  apply app_eq_app in HP as [l2 [[Hs2 Hx]|[Ha2 Hx]]].
  - (* the rest of the pattern begins inside the scheme *)
    assert (Hno : Forall (fun c => c <> "h") (l2 ++ [":"])).
    { apply Forall_app. split; [|repeat constructor; discriminate].
      destruct a as [|a0 a]; [contradiction|].
      destruct Hsch as [-> | ->]; cbn [app] in Hs2; injection Hs2 as _ Hs2;
        assert (Hf : Forall (fun c : ascii => c <> "h") (a ++ l2))
          by (rewrite <- Hs2; repeat constructor; discriminate);
        now apply Forall_app in Hf. }
    rewrite Hx in HN. change (":" :: lit0) with ([":"] ++ lit0) in HN.
    rewrite !app_assoc in HN. rewrite <- !app_assoc in HN.
    rewrite (app_assoc l2 [":"]) in HN.
    destruct (l2 ++ [":"]) as [|y t] eqn:Ey; [now destruct l2|].
    rewrite Hhp in HN. cbn in HN. injection HN as <- _.
    apply Forall_inv in Hno. contradiction.
  - (* the rest of the pattern is an end of the literal *)
    destruct l2 as [|y l2].
    + cbn [app] in Hx. injection Hx as <- _. rewrite Hhp in HN. cbn in HN.
      discriminate.
    + cbn [app] in Hx. injection Hx as _ Hx.
      assert (Hnc : ~ In ":" (x :: l)).
      { intros Hin. apply (not_mem_In _ _ Hcol). rewrite Hx.
        apply in_or_app. now right. }
      assert (Hend : exists l3, x :: l = l3 ++ ["/"]).
      { destruct (exists_last (l := x :: l)) as (l3 & z & Hz); [discriminate|].
        exists l3. rewrite Hz. rewrite Hl0, Hz, app_assoc in Hx.
        apply app_inj_tail in Hx as [_ ->]. reflexivity. }
      destruct Hend as [l3 Hl3].
      symmetry in HN. apply app_eq_app in HN as [l4 [[Hl4 _]|[Hl4 _]]].
      * apply Hnc. rewrite Hl4. apply in_or_app. now left.
      * apply Hnoslash. rewrite Hl4. apply in_or_app. left. rewrite Hl3.
        apply in_or_app. right. now left.
Qed.

Lemma mem_app c (a t : text) : Char.mem c (a ++ t) = Char.mem c a || Char.mem c t.
Proof. unfold Char.mem. apply existsb_app. Qed.

Lemma no_link_start_app lit q1 q2 w :
  no_link_start lit (q1 ++ q2) w
  = no_link_start lit q1 (q2 ++ w) && no_link_start lit q2 w.
Proof.
  induction q1 as [|c q1 IH]; [reflexivity|].
  cbn [no_link_start app]. rewrite IH, <- app_assoc. now rewrite andb_assoc.
Qed.

Lemma link_free_app u r b q1 q2 w :
  link_free u r b (q1 ++ q2) w = true
  <-> link_free u r b q1 (q2 ++ w) = true /\ link_free u r b q2 w = true.
Proof.
  unfold link_free. rewrite !no_link_start_app, !andb_true_iff. tauto.
Qed.

Lemma link_at_not_h lit c s : Ascii.eqb c "h" = false -> link_at lit (c :: s) = false.
Proof.
  intros H. unfold link_at.
  rewrite url_match_needs_http; [reflexivity|]. cbn. now rewrite H.
Qed.

(** The literals of both shapes: a colon, then a text without colon that
    ends with a slash. *)
Lemma jsdelivr_lit_shape u r b :
  colon_free u = true -> colon_free r = true -> colon_free b = true ->
  exists lit0, jsdelivr_lit u r b = ":" :: lit0 /\ Char.mem ":" lit0 = false /\
               exists l0, lit0 = l0 ++ ["/"].
Proof.
  unfold colon_free. intros Hu Hr Hb.
  apply negb_true_iff in Hu, Hr, Hb.
  exists (str "//cdn.jsdelivr.net/gh/" ++ u ++ "/" :: r ++ "@" :: b ++ ["/"]).
  split; [reflexivity|]. split.
  - rewrite mem_app.
    change ("/" :: r ++ "@" :: b ++ ["/"]) with (["/"] ++ r ++ ["@"] ++ b ++ ["/"]).
    rewrite !mem_app, Hu, Hr, Hb. reflexivity.
  - exists (str "//cdn.jsdelivr.net/gh/" ++ u ++ "/" :: r ++ "@" :: b).
    rewrite <- !app_assoc. cbn [app]. now rewrite <- !app_assoc.
Qed.

Lemma github_raw_lit_shape u r b :
  colon_free u = true -> colon_free r = true -> colon_free b = true ->
  exists lit0, github_raw_lit u r b = ":" :: lit0 /\ Char.mem ":" lit0 = false /\
               exists l0, lit0 = l0 ++ ["/"].
Proof.
  unfold colon_free. intros Hu Hr Hb.
  apply negb_true_iff in Hu, Hr, Hb.
  exists (str "//raw.githubusercontent.com/" ++ u ++ "/" :: r ++ "/" :: b ++ ["/"]).
  split; [reflexivity|]. split.
  - rewrite mem_app.
    change ("/" :: r ++ "/" :: b ++ ["/"]) with (["/"] ++ r ++ ["/"] ++ b ++ ["/"]).
    rewrite !mem_app, Hu, Hr, Hb. reflexivity.
  - exists (str "//raw.githubusercontent.com/" ++ u ++ "/" :: r ++ "/" :: b).
    rewrite <- !app_assoc. cbn [app]. now rewrite <- !app_assoc.
Qed.

Lemma no_link_start_transfer lit0 a M N :
  Char.mem ":" lit0 = false -> (exists l0, lit0 = l0 ++ ["/"]) ->
  Str.startswith M ["h"] = true ->
  Str.startswith N (str "http:") = true \/ Str.startswith N (str "https:") = true ->
  no_link_start (":" :: lit0) a M = true ->
  no_link_start (":" :: lit0) a N = true.
Proof.
  intros Hc He HM HN. induction a as [|c a IH]; [reflexivity|].
  cbn [no_link_start]. intros H. apply andb_prop in H as [H1 H2].
  apply negb_true_iff in H1.
  rewrite (link_at_transfer lit0 (c :: a) M N Hc He) by (assumption || discriminate).
  now rewrite IH.
Qed.

Lemma no_link_start_suffixes lit l y :
  (forall a x, l = a ++ x -> x <> [] -> link_at lit (x ++ y) = false) ->
  no_link_start lit l y = true.
Proof.
  induction l as [|c l IH]; [reflexivity|]. intros H. cbn [no_link_start].
  rewrite (H [] (c :: l)) by (reflexivity || discriminate). cbn [negb andb].
  apply IH. intros a x Hl Hx. apply (H (c :: a) x); [now rewrite Hl|exact Hx].
Qed.

(** No link begins inside the scheme and the literal of a link, after its
    first character, when the literal has one colon. *)
Lemma link_at_in_literal lit0 sch G0 a x y :
  sch = str "http" \/ sch = str "https" ->
  Char.mem ":" G0 = false -> (exists l0, G0 = l0 ++ ["/"]) ->
  a <> [] -> x <> [] -> a ++ x = sch ++ ":" :: G0 ->
  link_at (":" :: lit0) (x ++ y) = false.
Proof.
  intros Hsch Hcol [l0 Hl0] Ha Hx Heq.
  destruct (link_at (":" :: lit0) (x ++ y)) eqn:E; [|reflexivity]. exfalso.
  unfold link_at in E.
  destruct (url_match (":" :: lit0) (x ++ y)) as [[p rest]|] eqn:Em; [|discriminate].
  apply url_match_inv in Em as (sch' & Hsch' & Hm & _).
  assert (Hh : exists t, sch' ++ (":" :: lit0) ++ p ++ rest = "h" :: t)
    by (destruct Hsch' as [-> | ->]; now eexists).
  destruct Hh as [t Ht]. rewrite Ht in Hm.
  apply app_eq_app in Heq as [l [[Ha' Hl]|[Hs Hl]]].
  - (* [x] is an end of the literal *)
    destruct l as [|c l].
    { cbn [app] in Hl. rewrite <- Hl in Hm. cbn in Hm. discriminate. }
    cbn [app] in Hl. injection Hl as _ Hl.
    assert (Hnc : ~ In ":" x).
    { intros Hin. apply (not_mem_In _ _ Hcol). rewrite Hl.
      apply in_or_app. now right. }
    assert (Hend : exists l3, x = l3 ++ ["/"]).
    { destruct (exists_last Hx) as (l3 & z & Hz).
      exists l3. rewrite Hz. rewrite Hl0, Hz, app_assoc in Hl.
      apply app_inj_tail in Hl as [_ ->]. reflexivity. }
    destruct Hend as [l3 Hl3]. rewrite <- Ht in Hm.
    change (sch' ++ (":" :: lit0) ++ p ++ rest)
      with (sch' ++ [":"] ++ lit0 ++ p ++ rest) in Hm.
    rewrite app_assoc in Hm.
    apply app_eq_app in Hm as [l4 [[Hl4 _]|[Hl4 _]]].
    + apply Hnc. rewrite Hl4. apply in_or_app. left. apply in_or_app.
      right. now left.
    + assert (Hin : In "/" (sch' ++ [":"])).
      { rewrite Hl4. apply in_or_app. left. rewrite Hl3.
        apply in_or_app. right. now left. }
      destruct Hsch' as [-> | ->]; cbn in Hin; intuition discriminate.
  - (* [x] begins inside the scheme *)
    assert (Hno : Forall (fun c => c <> "h") (l ++ [":"])).
    { apply Forall_app. split; [|repeat constructor; discriminate].
      destruct a as [|a0 a]; [contradiction|].
      destruct Hsch as [-> | ->]; cbn [app] in Hs; injection Hs as _ Hs;
        assert (Hf : Forall (fun c : ascii => c <> "h") (a ++ l))
          by (rewrite <- Hs; repeat constructor; discriminate);
        now apply Forall_app in Hf. }
    rewrite Hl in Hm. change (":" :: G0) with ([":"] ++ G0) in Hm.
    rewrite (app_assoc l [":"]) in Hm.
    destruct (l ++ [":"]) as [|c0 t0] eqn:Ey; [now destruct l|].
    cbn in Hm. injection Hm as -> _. apply Forall_inv in Hno. contradiction.
Qed.

Lemma no_link_in_literal lit0 sch G0 y :
  sch = str "http" \/ sch = str "https" ->
  Char.mem ":" G0 = false -> (exists l0, G0 = l0 ++ ["/"]) ->
  no_link_start (":" :: lit0) (drop 1 (sch ++ ":" :: G0)) y = true.
Proof.
  intros Hsch Hcol Hend. apply no_link_start_suffixes. intros a x Hl Hx.
  apply (link_at_in_literal lit0 sch G0 ("h" :: a) x y Hsch Hcol Hend);
    [discriminate|exact Hx|].
  destruct Hsch as [-> | ->]; cbn in Hl |- *; now rewrite <- Hl.
Qed.

Lemma sub_text_nonempty lit d s :
  Str.startswith lit [":"] = true -> s <> [] -> sub_text (url_nodes lit) d s <> [].
Proof.
  intros Hcolon Hs. destruct s as [|c s]; [contradiction|].
  destruct (url_match lit (c :: s)) as [[path rest]|] eqn:E.
  - destruct (sub_text_hit lit d Hcolon _ _ _ E) as [-> _]. discriminate.
  - destruct (sub_text_skip lit d Hcolon _ _ E) as [-> _]. discriminate.
Qed.

(** No link begins inside a host name that is followed by a single slash. *)
Lemma no_link_in_host lit2 d y :
  Char.mem "/" d = false -> Str.startswith y ["/"] = false ->
  no_link_start (str "://" ++ lit2) d ("/" :: y) = true.
Proof.
  intros Hd Hy. induction d as [|c d IH]; [reflexivity|].
  assert (Hd' : Char.mem "/" d = false).
  { unfold Char.mem in *. cbn in Hd. now apply orb_false_iff in Hd. }
  cbn [no_link_start]. rewrite (IH Hd'), andb_true_r. apply negb_true_iff.
  destruct (link_at (str "://" ++ lit2) ((c :: d) ++ "/" :: y)) eqn:E; [|reflexivity].
  exfalso. unfold link_at in E.
  destruct (url_match _ _) as [[p rest]|] eqn:Em; [|discriminate].
  apply url_match_inv in Em as (sch & Hsch & Heq & _).
  change (sch ++ (str "://" ++ lit2) ++ p ++ rest)
    with (sch ++ [":"] ++ "/" :: ("/" :: lit2 ++ p ++ rest)) in Heq.
  rewrite app_assoc in Heq.
  apply split_at_sep in Heq as [_ Hy'].
  - rewrite Hy' in Hy. discriminate.
  - exact Hd.
  - destruct Hsch as [-> | ->]; reflexivity.
Qed.

(** No link of a shape begins in the head [https://d/] of a new URL. *)
Lemma new_url_head_free host lit2 d y :
  Char.mem "/" host = false -> Char.mem "/" d = false -> d <> host ->
  Str.startswith y ["/"] = false ->
  no_link_start (str "://" ++ host ++ "/" :: lit2) (str "https://" ++ d ++ ["/"]) y
  = true.
Proof.
  intros Hh Hd Hne Hy.
  change (str "https://" ++ d ++ ["/"]) with (["h"] ++ str "ttps://" ++ d ++ ["/"]).
  rewrite no_link_start_app. apply andb_true_iff. split.
  - cbn [no_link_start]. rewrite andb_true_r. apply negb_true_iff.
    unfold link_at.
    rewrite <- !app_assoc.
    change (["h"] ++ str "ttps://" ++ d ++ ["/"] ++ y)
      with (str "https" ++ str "://" ++ d ++ "/" :: y).
    rewrite url_match_scheme; [|now right|reflexivity].
    rewrite (after_same (str "://")).
    rewrite after_other; [reflexivity|exact Hh|exact Hd|congruence].
  - rewrite (no_link_start_app _ (str "ttps://")).
    apply andb_true_iff. split.
    + change (str "ttps://") with ["t"; "t"; "p"; "s"; ":"; "/"; "/"].
      cbn [no_link_start app].
      rewrite !link_at_not_h by reflexivity. reflexivity.
    + rewrite no_link_start_app. apply andb_true_iff. split.
      * apply (no_link_in_host (host ++ "/" :: lit2)); assumption.
      * cbn [no_link_start app]. rewrite link_at_not_h by reflexivity. reflexivity.
Qed.

(** A text cannot begin with a link of each shape. *)
Lemma shapes_disjoint u r b u' r' b' s :
  link_at (jsdelivr_lit u r b) s = true ->
  link_at (github_raw_lit u' r' b') s = false.
Proof.
  unfold link_at. intros H.
  destruct (url_match (jsdelivr_lit u r b) s) as [[p1 t1]|] eqn:E1; [|discriminate].
  destruct (url_match (github_raw_lit u' r' b') s) as [[p2 t2]|] eqn:E2; [|reflexivity].
  exfalso.
  apply url_match_inv in E1 as (s1 & Hs1 & -> & _).
  apply url_match_inv in E2 as (s2 & Hs2 & Heq & _).
  unfold jsdelivr_lit, github_raw_lit in Heq.
  destruct Hs1 as [-> | ->], Hs2 as [-> | ->]; cbn in Heq; discriminate.
Qed.

Lemma url_match_head lit s path rest :
  url_match lit s = Some (path, rest) -> Str.startswith s ["h"] = true.
Proof.
  intros H. apply url_match_inv in H as (sch & [-> | ->] & -> & _); reflexivity.
Qed.

Lemma lstrip_no_slash path rest :
  stops rest -> Str.startswith (Str.lstrip_char "/" path ++ rest) ["/"] = false.
Proof.
  intros Hst. destruct (lstrip_char_spec "/" path) as (k & _ & Hk).
  destruct (Str.lstrip_char "/" path) as [|c p]; [|exact Hk].
  destruct rest as [|e rest]; [reflexivity|]. cbn in *.
  destruct (Ascii.eqb e "/") eqn:E; [|reflexivity].
  apply Ascii.eqb_eq in E. subst. discriminate.
Qed.

(** What follows the slashes of a captured path also follows the first
    character of the link. *)
Lemma link_tail lit s path rest :
  url_match lit s = Some (path, rest) ->
  exists x, drop 1 s = x ++ Str.lstrip_char "/" path ++ rest.
Proof.
  intros H. apply url_match_inv in H as (sch & Hs & -> & _).
  destruct (lstrip_char_spec "/" path) as (k & Hk & _).
  exists (drop 1 sch ++ lit ++ repeat "/" k).
  rewrite Hk at 1. destruct Hs as [-> | ->]; cbn [drop str app];
    now rewrite <- !app_assoc.
Qed.

Section NewUrl.
Context (d lit' lit0 host lit2 : text).
Hypothesis (Hlit : lit' = ":" :: lit0) (Hcol : Char.mem ":" lit0 = false)
           (Hend : exists l0, lit0 = l0 ++ ["/"])
           (Hhost : lit' = str "://" ++ host ++ "/" :: lit2)
           (Hslash : Char.mem "/" host = false)
           (Hd : Char.mem "/" d = false) (Hne : d <> host).

(** Replacing a link by its new URL leaves no link of the shape [lit']
    where none began before, except at the link itself. *)
Lemma new_url_free lit A M path rest :
  no_link_start lit' A M = true ->
  url_match lit M = Some (path, rest) ->
  no_link_start lit' (drop 1 M) [] = true ->
  no_link_start lit' (A ++ new_url d path ++ rest) [] = true.
Proof.
  intros HA Hm Htail.
  assert (Hnew : new_url d path ++ rest
                 = (str "https://" ++ d ++ ["/"])
                     ++ Str.lstrip_char "/" path ++ rest).
  { unfold new_url, replacement_url_base. rewrite <- !app_assoc. reflexivity. }
  set (head := str "https://" ++ d ++ ["/"]) in Hnew.
  rewrite Hnew, (no_link_start_app lit' A), (no_link_start_app lit' head),
    !app_nil_r.
  assert (Hst : stops rest) by (apply url_match_inv in Hm as (? & _ & _ & _ & _ & H); exact H).
  apply andb_true_iff; split; [|apply andb_true_iff; split].
  - rewrite Hlit. apply (no_link_start_transfer lit0 A M); try assumption.
    + exact (url_match_head _ _ _ _ Hm).
    + now right.
    + now rewrite <- Hlit.
  - subst head. rewrite Hhost. apply new_url_head_free; try assumption.
    now apply lstrip_no_slash.
  - destruct (link_tail _ _ _ _ Hm) as [x Hx]. rewrite Hx in Htail.
    rewrite no_link_start_app in Htail. now apply andb_prop in Htail.
Qed.

End NewUrl.

Lemma fresh_host_spec d :
  fresh_host d = true ->
  Char.mem "/" d = false /\
  d <> str "cdn.jsdelivr.net" /\ d <> str "raw.githubusercontent.com".
Proof.
  unfold fresh_host. rewrite !andb_true_iff, !negb_true_iff.
  intros [[H1 H2] H3]. repeat split; try assumption.
  - intros E. apply str_eqb_eq in E. congruence.
  - intros E. apply str_eqb_eq in E. congruence.
Qed.

Lemma tail_free lit' lit M path rest :
  url_match lit M = Some (path, rest) ->
  no_link_start lit' (drop 1 M) [] = true ->
  no_link_start lit' rest [] = true.
Proof.
  intros Hm H. destruct (link_tail _ _ _ _ Hm) as [x Hx]. rewrite Hx in H.
  rewrite !no_link_start_app in H.
  apply andb_prop in H as [_ H]. now apply andb_prop in H as [_ H].
Qed.

Lemma link_free_cons u r b c q w :
  link_free u r b (c :: q) w = true
  <-> link_at (jsdelivr_lit u r b) (c :: q ++ w) = false /\
      link_at (github_raw_lit u r b) (c :: q ++ w) = false /\
      link_free u r b q w = true.
Proof.
  unfold link_free. cbn [no_link_start app].
  rewrite !andb_true_iff, !negb_true_iff. tauto.
Qed.

Section OnePass.
Context (lit d : text) (Hcolon : Str.startswith lit [":"] = true).

#[local] Abbreviation ppat := (url_nodes lit).

(** The substitution of the shape of the only link. *)
Lemma pass_hit A M path rest :
  no_link_start lit A M = true ->
  url_match lit M = Some (path, rest) ->
  no_link_start lit (drop 1 M) [] = true ->
  sub_text ppat d (A ++ M) = A ++ new_url d path ++ rest /\
  sub_count ppat d (A ++ M) = 1.
Proof.
  intros HA Hm Ht.
  destruct (sub_text_unmatched lit d Hcolon A M HA) as [-> ->].
  destruct (sub_text_hit lit d Hcolon M path rest Hm) as [-> ->].
  pose proof (tail_free lit lit M path rest Hm Ht) as Hr.
  rewrite (sub_text_free lit d Hcolon rest Hr).
  apply (sub_count_zero_iff lit d Hcolon) in Hr. rewrite Hr. now split.
Qed.

(** The substitution of the other shape. *)
Lemma pass_miss A M :
  no_link_start lit A M = true ->
  link_at lit M = false ->
  no_link_start lit (drop 1 M) [] = true ->
  no_link_start lit (A ++ M) [] = true.
Proof.
  intros HA Hm Ht. rewrite no_link_start_app, app_nil_r, HA.
  destruct M as [|c M]; [reflexivity|].
  cbn [no_link_start drop andb] in *. rewrite app_nil_r, Hm. exact Ht.
Qed.

End OnePass.

Lemma lstrip_path_chars path :
  all_path_chars path -> all_path_chars (Str.lstrip_char "/" path).
Proof.
  intros H. destruct (lstrip_char_spec "/" path) as (k & Hk & _).
  unfold all_path_chars in *. rewrite Hk in H. now apply Forall_app in H.
Qed.

Lemma new_url_path_chars d path :
  all_path_chars d -> all_path_chars path -> all_path_chars (new_url d path).
Proof.
  intros Hd Hp. unfold new_url, replacement_url_base, all_path_chars.
  rewrite <- app_assoc. apply Forall_app. split; [repeat constructor|].
  apply Forall_app. split; [exact Hd|].
  constructor; [reflexivity|now apply lstrip_path_chars].
Qed.

(** A substitution keeps a run of path characters one, when the custom
    domain is one. *)
Lemma sub_text_path_chars lit d s :
  Str.startswith lit [":"] = true ->
  all_path_chars d -> all_path_chars s ->
  all_path_chars (sub_text (url_nodes lit) d s).
Proof.
  intros Hcolon Hd. remember (length s) as n eqn:Hn. revert s Hn.
  induction n as [n IH] using lt_wf_ind. intros s -> Hs.
  destruct s as [|c s].
  { destruct (sub_text_nil lit d) as [-> _]. constructor. }
  destruct (url_match lit (c :: s)) as [[path rest]|] eqn:E.
  - destruct (sub_text_hit lit d Hcolon _ _ _ E) as [-> _].
    pose proof (url_match_shorter _ _ _ _ E) as Hlen.
    apply url_match_inv in E as (sch & _ & Heq & _ & Hp & _).
    unfold all_path_chars in Hs. rewrite Heq in Hs.
    apply Forall_app in Hs as [_ Hs]. apply Forall_app in Hs as [_ Hs].
    apply Forall_app in Hs as [_ Hs].
    apply Forall_app. split; [now apply new_url_path_chars|].
    apply (IH (length rest)); [lia|reflexivity|exact Hs].
  - destruct (sub_text_skip lit d Hcolon _ _ E) as [-> _].
    inversion Hs; subst. constructor; [assumption|].
    apply (IH (length s)); [cbn; lia|reflexivity|assumption].
Qed.

(** A link whose owner, name or branch differs is not a link of the
    configured shapes, when no part holds a separator. *)
Lemma other_link_head U R B u r b scheme path link :
  sep_free U = true -> sep_free R = true -> sep_free B = true ->
  sep_free u = true -> sep_free r = true -> sep_free b = true ->
  (u, r, b) <> (U, R, B) ->
  scheme = str "http" \/ scheme = str "https" ->
  link = scheme ++ jsdelivr_lit u r b ++ path \/
  link = scheme ++ github_raw_lit u r b ++ path ->
  link_at (jsdelivr_lit U R B) link = false /\
  link_at (github_raw_lit U R B) link = false.
Proof.
  intros HU HR HB Hu Hr Hb Hne Hs Hlink. unfold link_at. split.
  - destruct Hlink as [-> | ->]; rewrite url_match_scheme by (assumption || reflexivity).
    + now rewrite jsdelivr_other.
    + reflexivity.
  - destruct Hlink as [-> | ->]; rewrite url_match_scheme by (assumption || reflexivity).
    + reflexivity.
    + now rewrite github_raw_other.
Qed.

Lemma other_link_free U R B u r b scheme path link q :
  sep_free U = true -> sep_free R = true -> sep_free B = true ->
  sep_free u = true -> sep_free r = true -> sep_free b = true ->
  (u, r, b) <> (U, R, B) ->
  scheme = str "http" \/ scheme = str "https" ->
  link = scheme ++ jsdelivr_lit u r b ++ path \/
  link = scheme ++ github_raw_lit u r b ++ path ->
  link_free U R B q link = true -> link_free U R B (drop 1 link) [] = true ->
  link_free U R B (q ++ link) [] = true.
Proof.
  intros HU HR HB Hu Hr Hb Hne Hs Hlink Hq Ht.
  destruct (other_link_head U R B u r b scheme path link HU HR HB Hu Hr Hb Hne
              Hs Hlink) as [H1 H2].
  apply link_free_app. rewrite app_nil_r. split; [exact Hq|].
  assert (Hc : link = "h" :: drop 1 link)
    by (destruct Hlink as [-> | ->]; destruct Hs as [-> | ->]; reflexivity).
  rewrite Hc. apply link_free_cons. rewrite app_nil_r, <- Hc. auto.
Qed.

Section OneLink.
Context (u r b d : text).
Hypothesis (Hu : colon_free u = true) (Hr : colon_free r = true)
           (Hb : colon_free b = true) (Hd : fresh_host d = true).

#[local] Abbreviation J := (jsdelivr_lit u r b).
#[local] Abbreviation G := (github_raw_lit u r b).

Lemma out_link_free lit A M path rest :
  link_free u r b A M = true ->
  url_match lit M = Some (path, rest) ->
  link_free u r b (drop 1 M) [] = true ->
  link_free u r b (A ++ new_url d path ++ rest) [] = true.
Proof using Hu Hr Hb Hd.
  unfold link_free. intros HA Hm Ht.
  apply andb_prop in HA as [HA1 HA2]. apply andb_prop in Ht as [Ht1 Ht2].
  destruct (fresh_host_spec d Hd) as (Hs & Hn1 & Hn2).
  apply andb_true_iff. split.
  - destruct (jsdelivr_lit_shape u r b Hu Hr Hb) as (lit0 & E & Hc & He).
    apply (new_url_free d J lit0 (str "cdn.jsdelivr.net")
             (str "gh/" ++ u ++ "/" :: r ++ "@" :: b ++ ["/"]) E Hc He
             eq_refl eq_refl Hs Hn1 lit A M path rest HA1 Hm Ht1).
  - destruct (github_raw_lit_shape u r b Hu Hr Hb) as (lit0 & E & Hc & He).
    apply (new_url_free d G lit0 (str "raw.githubusercontent.com")
             (u ++ "/" :: r ++ "/" :: b ++ ["/"]) E Hc He
             eq_refl eq_refl Hs Hn2 lit A M path rest HA2 Hm Ht2).
Qed.

(** A text without link is left as it is and nothing is counted. *)
Lemma link_free_fixed s :
  link_free u r b s [] = true ->
  rewritten u r b d s = s /\ replacements u r b d s = 0.
Proof.
  unfold link_free, rewritten, replacements, jsdelivr_nodes, github_raw_nodes.
  intros H. apply andb_prop in H as [H1 H2].
  rewrite (sub_text_free J d eq_refl s H1), (sub_text_free G d eq_refl s H2).
  apply (sub_count_zero_iff J d eq_refl) in H1.
  apply (sub_count_zero_iff G d eq_refl) in H2.
  rewrite H1, H2. now split.
Qed.

(** The converse: a count of zero means that no link began anywhere. *)
Lemma zero_count_link_free s :
  replacements u r b d s = 0 -> link_free u r b s [] = true.
Proof.
  unfold link_free, replacements, jsdelivr_nodes, github_raw_nodes. intros H.
  assert (H1 : sub_count (url_nodes J) d s = 0) by lia.
  apply (sub_count_zero_iff J d eq_refl) in H1.
  rewrite (sub_text_free J d eq_refl s H1) in H.
  assert (H2 : sub_count (url_nodes G) d s = 0) by lia.
  apply (sub_count_zero_iff G d eq_refl) in H2.
  now rewrite H1, H2.
Qed.

(** One link in a text without any other: it is replaced, once, and the
    text that results holds no link. *)
Lemma rewritten_one_link A M path rest :
  link_free u r b A M = true ->
  url_match J M = Some (path, rest) \/ url_match G M = Some (path, rest) ->
  link_free u r b (drop 1 M) [] = true ->
  rewritten u r b d (A ++ M) = A ++ new_url d path ++ rest /\
  replacements u r b d (A ++ M) = 1 /\
  link_free u r b (A ++ new_url d path ++ rest) [] = true.
Proof using Hu Hr Hb Hd.
  intros HA Hm Ht.
  assert (Hout : link_free u r b (A ++ new_url d path ++ rest) [] = true)
    by (destruct Hm as [Hm|Hm]; exact (out_link_free _ A M path rest HA Hm Ht)).
  unfold link_free in HA, Ht, Hout.
  apply andb_prop in HA as [HA1 HA2]. apply andb_prop in Ht as [Ht1 Ht2].
  apply andb_prop in Hout as [Ho1 Ho2].
  unfold rewritten, replacements, jsdelivr_nodes, github_raw_nodes.
  destruct Hm as [Hm|Hm].
  - destruct (pass_hit J d eq_refl A M path rest HA1 Hm Ht1) as [-> ->].
    rewrite (sub_text_free G d eq_refl _ Ho2).
    apply (sub_count_zero_iff G d eq_refl) in Ho2. rewrite Ho2.
    split; [reflexivity|]. split; [reflexivity|].
    unfold link_free. rewrite Ho1. now apply (sub_count_zero_iff G d eq_refl).
  - assert (Hj : link_at J M = false).
    { destruct (link_at J M) eqn:E; [|reflexivity].
      apply (shapes_disjoint u r b u r b) in E. unfold link_at in E.
      now rewrite Hm in E. }
    pose proof (pass_miss J A M HA1 Hj Ht1) as Hfree.
    rewrite (sub_text_free J d eq_refl _ Hfree).
    apply (sub_count_zero_iff J d eq_refl) in Hfree. rewrite Hfree.
    destruct (pass_hit G d eq_refl A M path rest HA2 Hm Ht2) as [-> ->].
    split; [reflexivity|]. split; [reflexivity|].
    unfold link_free. now rewrite Ho1, Ho2.
Qed.

Lemma link_starts_zero s : link_starts u r b s = 0 -> link_free u r b s [] = true.
Proof.
  induction s as [|c s IH]; [reflexivity|]. cbn [link_starts]. intros H.
  apply link_free_cons. rewrite app_nil_r.
  destruct (link_at J (c :: s)), (link_at G (c :: s)); cbn in H; try discriminate.
  repeat split. apply IH. lia.
Qed.

Lemma link_starts_one s :
  link_starts u r b s <= 1 ->
  link_free u r b s [] = true \/
  exists A M path rest,
    s = A ++ M /\ link_free u r b A M = true /\
    (url_match J M = Some (path, rest) \/ url_match G M = Some (path, rest)) /\
    link_free u r b (drop 1 M) [] = true.
Proof.
  induction s as [|c s IH]; [now left|]. cbn [link_starts]. intros H.
  destruct (link_at J (c :: s) || link_at G (c :: s)) eqn:E.
  - right. assert (H0 : link_starts u r b s = 0) by lia.
    apply link_starts_zero in H0.
    apply orb_prop in E. unfold link_at in E.
    destruct (url_match J (c :: s)) as [[p1 t1]|] eqn:E1.
    + exists [], (c :: s), p1, t1. repeat split; [now left|exact H0].
    + destruct (url_match G (c :: s)) as [[p2 t2]|] eqn:E2.
      * exists [], (c :: s), p2, t2. repeat split; [now right|exact H0].
      * now destruct E.
  - apply orb_false_iff in E as [E1 E2].
    destruct IH as [IH|(A & M & path & rest & -> & HA & Hm & Ht)]; [lia| |].
    + left. apply link_free_cons. now rewrite app_nil_r.
    + right. exists (c :: A), M, path, rest. repeat split; try assumption.
      apply link_free_cons. auto.
Qed.

Lemma fixed_after_free s : link_free u r b s [] = true -> fixed_after u r b d s.
Proof.
  intros H. unfold fixed_after. destruct (link_free_fixed s H) as [-> ->].
  destruct (link_free_fixed s H) as [-> _]. now split.
Qed.

Lemma fixed_after_one t : link_starts u r b t <= 1 -> fixed_after u r b d t.
Proof using Hu Hr Hb Hd.
  intros H.
  destruct (link_starts_one t H) as [Hf|(A & M & path & rest & -> & HA & Hm & Ht)].
  - now apply fixed_after_free.
  - destruct (rewritten_one_link A M path rest HA Hm Ht) as (E & _ & Hout).
    unfold fixed_after. rewrite E. apply (link_free_fixed _ Hout).
Qed.

Lemma fixed_after_spaced s :
  all_path_chars u -> all_path_chars r -> all_path_chars b ->
  spaced u r b s -> fixed_after u r b d s.
Proof using Hu Hr Hb Hd.
  intros Pu Pr Pb Hs. induction Hs as [t Ht|a e t Ha [Ea Na] He Ht [Et Nt]].
  - now apply fixed_after_one.
  - unfold fixed_after.
    destruct (rewritten_app_stop u r b d a e t Pu Pr Pb He) as [-> _].
    destruct (rewritten_app_stop u r b d (rewritten u r b d a) e
                (rewritten u r b d t) Pu Pr Pb He) as [-> ->].
    rewrite Ea, Et, Na, Nt. split; reflexivity.
Qed.

(** A jsDelivr link in a run before which no link begins: the first
    substitution replaces it, and the second goes on inside its path. *)
Lemma jsdelivr_link_in_run q sch path :
  Char.mem "/" d = false -> d <> str "raw.githubusercontent.com" ->
  sch = str "http" \/ sch = str "https" ->
  path <> [] -> all_path_chars path ->
  link_free u r b q (sch ++ J ++ path) = true ->
  rewritten u r b d (q ++ sch ++ J ++ path)
  = q ++ (str "https://" ++ d ++ ["/"])
      ++ sub_text (url_nodes G) d (Str.lstrip_char "/" path) /\
  replacements u r b d (q ++ sch ++ J ++ path)
  = 1 + sub_count (url_nodes G) d (Str.lstrip_char "/" path).
Proof using Hu Hr Hb.
  intros Hsl Hn2 Hs Hne Hp Hq. unfold link_free in Hq.
  apply andb_prop in Hq as [Hq1 Hq2].
  assert (Hm : url_match J (sch ++ J ++ path) = Some (path, [])).
  { pose proof (url_match_link J eq_refl sch path [] Hs Hne Hp I) as H.
    now rewrite app_nil_r in H. }
  unfold rewritten, replacements, jsdelivr_nodes, github_raw_nodes.
  destruct (sub_text_unmatched J d eq_refl q _ Hq1) as [-> ->].
  destruct (sub_text_hit J d eq_refl _ _ _ Hm) as [-> ->].
  destruct (sub_text_nil J d) as [-> ->]. rewrite app_nil_r.
  assert (Hnew : new_url d path
                 = (str "https://" ++ d ++ ["/"]) ++ Str.lstrip_char "/" path).
  { unfold new_url, replacement_url_base. now rewrite <- !app_assoc. }
  destruct (github_raw_lit_shape u r b Hu Hr Hb) as (lit0 & E & Hc & He).
  assert (Hq2' : no_link_start G q (new_url d path) = true).
  { rewrite E. apply (no_link_start_transfer lit0 q (sch ++ J ++ path)); try assumption.
    - exact (url_match_head _ _ _ _ Hm).
    - now right.
    - now rewrite <- E. }
  destruct (sub_text_unmatched G d eq_refl q _ Hq2') as [-> ->].
  rewrite Hnew.
  assert (Hh : no_link_start G (str "https://" ++ d ++ ["/"])
                 (Str.lstrip_char "/" path) = true).
  { apply (new_url_head_free (str "raw.githubusercontent.com")
             (u ++ "/" :: r ++ "/" :: b ++ ["/"]) d); try assumption.
    - reflexivity.
    - pose proof (lstrip_no_slash path [] I) as H. now rewrite app_nil_r in H. }
  destruct (sub_text_unmatched G d eq_refl _ _ Hh) as [-> ->].
  split; [reflexivity|lia].
Qed.

(** A raw link in a run before which no link begins: the first
    substitution works inside its path, the second replaces it. *)
Lemma github_raw_link_in_run q sch path :
  sch = str "http" \/ sch = str "https" ->
  path <> [] -> all_path_chars path -> all_path_chars d ->
  link_free u r b q (sch ++ G ++ path) = true ->
  rewritten u r b d (q ++ sch ++ G ++ path)
  = q ++ new_url d (sub_text (url_nodes J) d path) /\
  replacements u r b d (q ++ sch ++ G ++ path)
  = sub_count (url_nodes J) d path + 1.
Proof using Hu Hr Hb.
  intros Hs Hne Hp Hdc Hq. unfold link_free in Hq.
  apply andb_prop in Hq as [Hq1 Hq2].
  assert (Hm : forall t, t <> [] -> all_path_chars t ->
                         url_match G (sch ++ G ++ t) = Some (t, [])).
  { intros t Ht Hpt. pose proof (url_match_link G eq_refl sch t [] Hs Ht Hpt I) as H.
    now rewrite app_nil_r in H. }
  destruct (github_raw_lit_shape u r b Hu Hr Hb) as (G0 & EG & Hc & He).
  assert (HJ : no_link_start J (q ++ sch ++ G) path = true).
  { rewrite no_link_start_app, <- app_assoc, Hq1. cbn [andb].
    assert (Hcons : sch ++ G = "h" :: drop 1 (sch ++ G))
      by (destruct Hs as [-> | ->]; reflexivity).
    rewrite Hcons. cbn [no_link_start]. rewrite <- Hcons.
    apply andb_true_iff. split.
    - apply negb_true_iff. rewrite <- app_assoc.
      destruct (link_at J (sch ++ G ++ path)) eqn:E; [|reflexivity].
      apply (shapes_disjoint u r b u r b) in E. unfold link_at in E.
      now rewrite (Hm path Hne Hp) in E.
    - rewrite EG. apply (no_link_in_literal _ sch G0 path Hs Hc He). }
  unfold rewritten, replacements, jsdelivr_nodes, github_raw_nodes.
  assert (Hre : q ++ sch ++ G ++ path = (q ++ sch ++ G) ++ path)
    by now rewrite <- !app_assoc.
  rewrite Hre.
  destruct (sub_text_unmatched J d eq_refl _ _ HJ) as [-> ->].
  rewrite <- !app_assoc.
  set (path1 := sub_text (url_nodes J) d path).
  assert (Hq2' : no_link_start G q (sch ++ G ++ path1) = true).
  { rewrite EG. apply (no_link_start_transfer G0 q (sch ++ G ++ path)); try assumption.
    - destruct Hs as [-> | ->]; reflexivity.
    - rewrite <- EG. destruct Hs as [-> | ->]; [now left|now right].
    - now rewrite <- EG. }
  destruct (sub_text_unmatched G d eq_refl _ _ Hq2') as [-> ->].
  assert (Hm1 : url_match G (sch ++ G ++ path1) = Some (path1, [])).
  { apply Hm; [now apply sub_text_nonempty|now apply sub_text_path_chars]. }
  destruct (sub_text_hit G d eq_refl _ _ _ Hm1) as [-> ->].
  destruct (sub_text_nil G d) as [-> ->]. rewrite app_nil_r.
  split; [reflexivity|lia].
Qed.

(** The text around a run, cut off by characters no path may contain, is
    rewritten on its own. *)
Lemma substitute_in_context pre m post out n :
  all_path_chars u -> all_path_chars r -> all_path_chars b ->
  stopped_before pre -> stops post ->
  rewritten u r b d m = out -> replacements u r b d m = n ->
  substitute u r b d (pre ++ m ++ post)
  = Some (rewritten u r b d pre ++ out ++ rewritten u r b d post,
          replacements u r b d pre + n + replacements u r b d post).
Proof.
  intros Pu Pr Pb Hpre Hpost <- <-. rewrite substitute_eq.
  now destruct (rewritten_between u r b d Pu Pr Pb pre m post Hpre Hpost)
    as [-> ->].
Qed.

End OneLink.

End LinkFacts.

(** ** A second run *)

Module SecondRun.
Import Re ReSpec ReFacts SubstFacts RunFacts WalkFacts ProcessFacts.

Lemma writes_app a t : writes (a ++ t) = writes a ++ writes t.
Proof. apply flat_map_app. Qed.

Lemma main_run a w u r b x exts :
  parse_repo_string (repo a) = inl (u, r, b) ->
  parse_extensions (extensions a) = x :: exts ->
  snd (main a w)
  = summary (x :: exts) (directory a)
      (fold_left (process_dir u r b (domain a) (x :: exts))
         (fst (os_walk (directory a) w))
         (RunState 0 0
            (log (EvWalk (directory a))
               (print (OutBanner (repo a) (domain a) (directory a) (x :: exts))
                  w)))).
Proof.
  intros Hp He. unfold main, os_walk. rewrite Hp, He. cbn [dirs print].
  now destruct (dirs w !! directory a).
Qed.

Lemma fold_left_inv_in {A B} (P : A -> Prop) (f : A -> B -> A) l :
  (forall a x, In x l -> P a -> P (f a x)) ->
  forall a, P a -> P (fold_left f l a).
Proof.
  induction l as [|x l IH]; intros Hf a Ha; [exact Ha|].
  cbn. apply IH.
  - intros a' x' Hin. apply Hf. now right.
  - apply Hf; [now left|exact Ha].
Qed.

Lemma fold_settles {A B} (f : A -> B -> A) (I : A -> Prop) (S : B -> A -> Prop)
    (l : list B) :
  (forall a x, In x l -> I a -> I (f a x) /\ S x (f a x)) ->
  (forall a x y, In x l -> I a -> S y a -> S y (f a x)) ->
  forall a, I a ->
            I (fold_left f l a) /\ forall x, In x l -> S x (fold_left f l a).
Proof.
  induction l as [|x l IH]; intros Hstep Hkeep a Ha; [now split|].
  cbn [fold_left]. destruct (Hstep a x (or_introl eq_refl) Ha) as [Hi Hs].
  assert (Hstep' : forall a x, In x l -> I a -> I (f a x) /\ S x (f a x))
    by (intros a' x' Hin; apply Hstep; now right).
  assert (Hkeep' : forall a x y, In x l -> I a -> S y a -> S y (f a x))
    by (intros a' x' y Hin; apply Hkeep; now right).
  destruct (IH Hstep' Hkeep' _ Hi) as [Hi' Hs']. split; [exact Hi'|].
  intros y [<-|Hy]; [|now apply Hs'].
  assert (H : I (fold_left f l (f a x)) /\ S x (fold_left f l (f a x))).
  { apply (fold_left_inv_in (fun a => I a /\ S x a)); [|now split].
    intros a' x' Hin [Hi0 Hs0].
    split; [apply (Hstep' a' x' Hin Hi0)|now apply (Hkeep' a' x' x Hin)]. }
  apply H.
Qed.

Lemma universal_newlines_cr s :
  universal_newlines ("013" :: s)
  = "010" :: universal_newlines
               match s with
               | c' :: s'' => if Ascii.eqb c' "010" then s'' else s
               | [] => []
               end.
Proof.
  destruct s as [|c' s]; [reflexivity|].
  cbn [universal_newlines Ascii.eqb Bool.eqb andb]. now destruct (Ascii.eqb c' "010").
Qed.

Lemma universal_newlines_other c s :
  Ascii.eqb c "013" = false ->
  universal_newlines (c :: s) = c :: universal_newlines s.
Proof. intros H. cbn [universal_newlines]. now rewrite H. Qed.

Lemma universal_newlines_again s :
  universal_newlines (universal_newlines s) = universal_newlines s.
Proof.
  remember (length s) as n eqn:Hn. revert s Hn.
  induction n as [n IH] using lt_wf_ind. intros s ->.
  destruct s as [|c s]; [reflexivity|].
  destruct (Ascii.eqb c "013") eqn:Ec.
  - apply Ascii.eqb_eq in Ec. subst c. rewrite universal_newlines_cr.
    rewrite (universal_newlines_other "010") by reflexivity. f_equal.
    eapply IH; [|reflexivity].
    destruct s as [|c' s]; [cbn; lia|]. destruct (Ascii.eqb c' "010"); cbn; lia.
  - rewrite (universal_newlines_other c s Ec).
    rewrite (universal_newlines_other c _ Ec). f_equal.
    apply (IH (length s)); [cbn; lia|reflexivity].
Qed.

Section Run.
Context (u r b d : text) (exts : list text) (paths : list text).

#[local] Abbreviation fixed := (all_fixed u r b d paths).
#[local] Abbreviation done := (settled u r b d).

Lemma fixed_after_zero c :
  fixed_after u r b d c -> rewritten u r b d c = c -> replacements u r b d c = 0.
Proof. intros [_ H] E. now rewrite E in H. Qed.

Lemma fixed_after_again c :
  fixed_after u r b d c -> fixed_after u r b d (rewritten u r b d c).
Proof. intros [E N]. unfold fixed_after. rewrite !E. now split. Qed.

Lemma replace_links_in_file_dirs p w :
  dirs (snd (replace_links_in_file p u r b d w)) = dirs w.
Proof.
  pose proof (replace_links_in_file_cases p u r b d w) as H.
  destruct (files w !! p) as [f|]; [|now rewrite H].
  destruct (read_fault f); [now rewrite H|]. cbn zeta in H.
  destruct (Str.eqb _ _); [now rewrite H|].
  destruct (write_fault f); now rewrite H.
Qed.

(** The first run, one file: what it reads is settled afterwards. *)
Lemma first_run_file p w :
  In p paths -> fixed (files w) ->
  fixed (files (snd (replace_links_in_file p u r b d w))) /\
  done p (files (snd (replace_links_in_file p u r b d w))) /\
  (forall q, done q (files w) ->
             done q (files (snd (replace_links_in_file p u r b d w)))).
Proof.
  intros Hin Hfix. pose proof (replace_links_in_file_cases p u r b d w) as H.
  destruct (files w !! p) as [f|] eqn:Hf.
  2:{ rewrite H. cbn [snd files print log]. split; [exact Hfix|]. split; [|auto].
      intros f Hf'. congruence. }
  destruct (read_fault f) as [e|] eqn:Hr.
  { rewrite H. cbn [snd files print log]. split; [exact Hfix|]. split; [|auto].
    intros f' Hf' Hr'. congruence. }
  cbn zeta in H. destruct (Hfix p f Hin Hf Hr) as (Hw & Hff & Hback).
  destruct (Str.eqb _ _) eqn:He.
  { rewrite H. cbn [snd files print log]. split; [exact Hfix|]. split; [|auto].
    intros f' Hf' _. assert (f' = f) by congruence. subst f'.
    apply str_eqb_eq in He. now apply fixed_after_zero. }
  rewrite Hw in H. rewrite H. cbn [snd files print].
  set (c' := universal_newlines (rewritten u r b d (contents f))) in *.
  assert (Hp : done p (<[p := File c' None None]> (files w))).
  { intros f'. rewrite lookup_insert_eq. intros E _. injection E as <-.
    exact Hback. }
  split; [|split; [exact Hp|]].
  - intros q g Hq. destruct (decide (q = p)) as [->|Hne].
    + rewrite lookup_insert_eq. intros E _. injection E as <-. cbn.
      pose proof (replacements_zero u r b d c' Hback) as Hsame.
      split; [reflexivity|]. split.
      * unfold fixed_after. now rewrite !Hsame.
      * rewrite Hsame. unfold c'. rewrite universal_newlines_again. exact Hback.
    + rewrite lookup_insert_ne by congruence. now apply Hfix.
  - intros q Hq. destruct (decide (q = p)) as [->|Hne]; [exact Hp|].
    intros g. rewrite lookup_insert_ne by congruence. apply Hq.
Qed.

Lemma first_run_process_file root st name :
  (selected exts name = true -> In (Str.path_join root name) paths) ->
  fixed (files (the_world st)) ->
  fixed (files (the_world (process_file u r b d exts root st name))) /\
  (selected exts name = true ->
   done (Str.path_join root name)
        (files (the_world (process_file u r b d exts root st name)))) /\
  (forall q, done q (files (the_world st)) ->
             done q (files (the_world (process_file u r b d exts root st name)))).
Proof.
  intros Hin Hfix. unfold process_file.
  destruct (selected exts name); [|split; [exact Hfix|split; [discriminate|auto]]].
  pose proof (first_run_file (Str.path_join root name)
                (print (OutProcessing (Str.path_join root name)) (the_world st))
                (Hin eq_refl) Hfix) as H.
  destruct (replace_links_in_file _ _ _ _ _ _) as [count w2].
  cbn [snd the_world files print] in *. destruct H as (H1 & H2 & H3).
  split; [exact H1|]. split; [intros _; exact H2|exact H3].
Qed.

Lemma first_run_dir st entry :
  (forall name, In name (snd entry) -> selected exts name = true ->
                In (Str.path_join (fst entry) name) paths) ->
  fixed (files (the_world st)) ->
  fixed (files (the_world (process_dir u r b d exts st entry))) /\
  (forall name, In name (snd entry) -> selected exts name = true ->
     done (Str.path_join (fst entry) name)
          (files (the_world (process_dir u r b d exts st entry)))) /\
  (forall q, done q (files (the_world st)) ->
             done q (files (the_world (process_dir u r b d exts st entry)))).
Proof.
  intros Hin Hfix. unfold process_dir.
  destruct (fold_settles (process_file u r b d exts (fst entry))
              (fun st => fixed (files (the_world st)))
              (fun name st => selected exts name = true ->
                              done (Str.path_join (fst entry) name)
                                   (files (the_world st)))
              (snd entry)) with (a := st) as [H1 H2].
  - intros a x Hx Ha.
    destruct (first_run_process_file (fst entry) a x (Hin x Hx) Ha) as (? & ? & ?).
    now split.
  - intros a x y Hx Ha Hy Hsel.
    destruct (first_run_process_file (fst entry) a x (Hin x Hx) Ha) as (_ & _ & H).
    auto.
  - exact Hfix.
  - split; [exact H1|]. split; [exact H2|].
    intros q Hq.
    apply (fold_left_inv_in (fun st => fixed (files (the_world st))
                                       /\ done q (files (the_world st))));
      [|now split].
    intros a x Hx [Ha Hqa].
    destruct (first_run_process_file (fst entry) a x (Hin x Hx) Ha) as (? & _ & H).
    auto.
Qed.

Lemma first_run entries st :
  (forall q, In q (selected_paths exts entries) -> In q paths) ->
  fixed (files (the_world st)) ->
  fixed (files (the_world (fold_left (process_dir u r b d exts) entries st))) /\
  forall q, In q (selected_paths exts entries) ->
            done q (files (the_world
                             (fold_left (process_dir u r b d exts) entries st))).
Proof.
  intros Hin Hfix.
  assert (Hentry : forall entry, In entry entries ->
            forall name, In name (snd entry) -> selected exts name = true ->
                         In (Str.path_join (fst entry) name) paths).
  { intros entry He name Hn Hsel. apply Hin, in_selected_paths.
    exists (fst entry), (snd entry), name. now destruct entry. }
  destruct (fold_settles (process_dir u r b d exts)
              (fun st => fixed (files (the_world st)))
              (fun entry st =>
                 forall name, In name (snd entry) -> selected exts name = true ->
                   done (Str.path_join (fst entry) name) (files (the_world st)))
              entries) with (a := st) as [H1 H2].
  - intros a x Hx Ha. destruct (first_run_dir a x (Hentry x Hx) Ha) as (? & ? & ?).
    now split.
  - intros a x y Hx Ha Hy name Hn Hsel.
    destruct (first_run_dir a x (Hentry x Hx) Ha) as (_ & _ & H). auto.
  - exact Hfix.
  - split; [exact H1|]. intros q Hq.
    apply in_selected_paths in Hq as (root & names & name & Hi & Hn & Hsel & ->).
    exact (H2 (root, names) Hi name Hn Hsel).
Qed.

Lemma process_file_dirs root st name :
  dirs (the_world (process_file u r b d exts root st name)) = dirs (the_world st).
Proof.
  unfold process_file. destruct (selected exts name); [|reflexivity].
  pose proof (replace_links_in_file_dirs (Str.path_join root name)
                (print (OutProcessing (Str.path_join root name)) (the_world st)))
    as H.
  now destruct (replace_links_in_file _ _ _ _ _ _).
Qed.

Lemma run_dirs entries st :
  dirs (the_world (fold_left (process_dir u r b d exts) entries st))
  = dirs (the_world st).
Proof.
  apply (fold_left_inv (fun st' => dirs (the_world st') = dirs (the_world st)));
    [|reflexivity].
  intros a x Ha. unfold process_dir.
  apply (fold_left_inv (fun st' => dirs (the_world st') = dirs (the_world st)));
    [|exact Ha].
  intros a' x' Ha'. now rewrite process_file_dirs.
Qed.

(** The second run, one file: a settled file is read and left alone. *)
Lemma second_run_file p w :
  done p (files w) ->
  fst (replace_links_in_file p u r b d w) = 0 /\
  files (snd (replace_links_in_file p u r b d w)) = files w /\
  writes (events (snd (replace_links_in_file p u r b d w))) = writes (events w) /\
  exists lines,
    stdout (snd (replace_links_in_file p u r b d w)) = stdout w ++ lines /\
    forallb idle_line lines = true.
Proof.
  intros Hdone. pose proof (replace_links_in_file_cases p u r b d w) as H.
  assert (Hw : writes (events w ++ [EvOpenRead p]) = writes (events w))
    by (rewrite writes_app; cbn; now rewrite app_nil_r).
  destruct (files w !! p) as [f|] eqn:Hf.
  2:{ rewrite H. cbn [fst snd files events stdout print log].
      repeat split; [exact Hw|]. now exists [OutNotFound p]. }
  destruct (read_fault f) as [e|] eqn:Hr.
  { rewrite H. cbn [fst snd files events stdout print log].
    repeat split; [exact Hw|]. exists [report p e]. split; [reflexivity|].
    now destruct e. }
  cbn zeta in H. pose proof (Hdone f Hf Hr) as Hz.
  pose proof (replacements_zero u r b d _ Hz) as Hsame.
  apply str_eqb_eq in Hsame. rewrite Hsame, Hz in H. rewrite H.
  cbn [fst snd files events stdout print log].
  repeat split; [exact Hw|]. exists []. now rewrite app_nil_r.
Qed.

Lemma second_run_process_file fs ws out root st name :
  (selected exts name = true -> done (Str.path_join root name) fs) ->
  idle_run fs ws out st ->
  idle_run fs ws out (process_file u r b d exts root st name).
Proof.
  intros Hsel (Hf & Hn & Hw & lines & Hl & Hidle). unfold process_file.
  destruct (selected exts name); [|now repeat split; [| | |exists lines]].
  specialize (Hsel eq_refl). rewrite <- Hf in Hsel.
  destruct (second_run_file (Str.path_join root name)
              (print (OutProcessing (Str.path_join root name)) (the_world st))
              Hsel) as (H0 & H1 & H2 & lines2 & H3 & H4).
  destruct (replace_links_in_file _ _ _ _ _ _) as [count w2].
  cbn [fst snd the_world total_replacements files events stdout print] in *.
  subst count. unfold idle_run. cbn [the_world total_replacements].
  split; [congruence|]. split; [lia|]. split; [congruence|].
  exists (lines ++ OutProcessing (Str.path_join root name) :: lines2).
  split.
  - rewrite H3, Hl, <- !app_assoc. reflexivity.
  - rewrite forallb_app. cbn. now rewrite Hidle, H4.
Qed.

Lemma second_run fs ws out entries st :
  (forall q, In q (selected_paths exts entries) -> done q fs) ->
  idle_run fs ws out st ->
  idle_run fs ws out (fold_left (process_dir u r b d exts) entries st).
Proof.
  intros Hdone. apply fold_left_inv_in. intros a entry Hin Ha.
  unfold process_dir. revert a Ha. apply fold_left_inv_in.
  intros a name Hn Ha. apply second_run_process_file; [|exact Ha].
  intros Hsel. apply Hdone. apply in_selected_paths.
  exists (fst entry), (snd entry), name. now destruct entry.
Qed.

End Run.

(** After a run over files that it can write and whose rewritten text is
    stable, a second run changes no file, writes nothing and reports no
    replacement. *)
Lemma main_twice a w u r b :
  parse_repo_string (repo a) = inl (u, r, b) ->
  all_fixed u r b (domain a)
    (selected_paths (parse_extensions (extensions a))
       (fst (os_walk (directory a) w)))
    (files w) ->
  files (snd (main a (snd (main a w)))) = files (snd (main a w)) /\
  writes (events (snd (main a (snd (main a w)))))
  = writes (events (snd (main a w))) /\
  exists lines,
    stdout (snd (main a (snd (main a w)))) = stdout (snd (main a w)) ++ lines /\
    forallb idle_line lines = true.
Proof.
  intros Hp Hfix.
  destruct (parse_extensions (extensions a)) as [|x exts] eqn:He.
  { assert (Hm : forall w', snd (main a w') = eprint ErrExtensions w')
      by (intros w'; unfold main; now rewrite Hp, He).
    rewrite !Hm. cbn. repeat split. exists []. now rewrite app_nil_r. }
  set (w1 := snd (main a w)).
  rewrite (main_run a w1 u r b x exts Hp He).
  set (banner := OutBanner (repo a) (domain a) (directory a) (x :: exts)).
  set (step := process_dir u r b (domain a) (x :: exts)).
  assert (Hsum : forall st,
             files (summary (x :: exts) (directory a) st) = files (the_world st) /\
             dirs (summary (x :: exts) (directory a) st) = dirs (the_world st) /\
             events (summary (x :: exts) (directory a) st)
             = events (the_world st)).
  { intros st. unfold summary. now destruct (_ =? _)%nat. }
  set (entries := fst (os_walk (directory a) w)).
  set (st1 := fold_left step entries
                (RunState 0 0 (log (EvWalk (directory a)) (print banner w)))).
  assert (Hw1 : w1 = summary (x :: exts) (directory a) st1)
    by apply (main_run a w u r b x exts Hp He).
  destruct (first_run u r b (domain a) (x :: exts)
              (selected_paths (x :: exts) entries) entries
              (RunState 0 0 (log (EvWalk (directory a)) (print banner w)))
              (fun q H => H) Hfix)
    as [_ Hdone].
  fold step in Hdone. fold st1 in Hdone.
  destruct (Hsum st1) as (Hf1 & Hd1 & _). rewrite <- Hw1 in Hf1, Hd1.
  assert (Hentries : fst (os_walk (directory a) w1) = entries).
  { unfold entries, os_walk. rewrite Hd1. unfold st1, step.
    rewrite run_dirs. cbn [the_world dirs log print].
    now destruct (dirs w !! directory a). }
  rewrite Hentries. rewrite <- Hf1 in Hdone.
  pose proof (second_run u r b (domain a) (x :: exts) (files w1)
                (writes (events w1)) (stdout w1) entries
                (RunState 0 0 (log (EvWalk (directory a)) (print banner w1)))
                Hdone) as H2.
  fold step in H2.
  set (st2 := fold_left step entries
                (RunState 0 0 (log (EvWalk (directory a)) (print banner w1))))
    in *.
  destruct H2 as (Hf2 & Hn2 & Hw2 & lines & Hl2 & Hidle).
  { unfold idle_run. cbn [the_world total_replacements files events stdout log print].
    repeat split.
    - rewrite writes_app. cbn. now rewrite app_nil_r.
    - now exists [banner]. }
  destruct (Hsum st2) as (Hf & _ & Hev). rewrite Hf, Hev.
  split; [exact Hf2|]. split; [exact Hw2|].
  unfold summary. destruct (_ =? _)%nat; cbn [stdout print]; rewrite Hl2.
  - exists (lines ++ [OutNoFiles (x :: exts) (directory a)]).
    rewrite <- app_assoc. split; [reflexivity|].
    rewrite forallb_app, Hidle. reflexivity.
  - exists (lines ++ [OutSummary (total_files_processed st2) (total_replacements st2)]).
    rewrite <- app_assoc. split; [reflexivity|].
    rewrite forallb_app, Hidle, Hn2. reflexivity.
Qed.

End SecondRun.
(** * The claims *)

Import Re ReSpec ReFacts ParseFacts SubstFacts RunFacts WalkFacts ProcessFacts
  LinkFacts SecondRun.

(** ** Reference parser *)

(** C3, as stated, fails: [a/b@<newline>c] has the shape owner/name@branch
    with three non-empty parts, and the parser rejects it. *)
Lemma parse_rejects_branch_after_newline :
  has_shape ref_newline_first /\
  parse_repo_string ref_newline_first = inr BadFormat.
Proof.
  split; [|reflexivity].
  exists (str "a"), (str "b"), [nl; "c"]. repeat split; discriminate.
Qed.

(** C3, amended: the parser accepts exactly the texts that begin with
    owner/name@branch where the owner is non-empty and has no slash, the
    name is non-empty and has no at sign, the branch is non-empty and runs to
    the end of its line; it returns these three parts, and every other text
    is refused with the format error.  The two examples of the
    specification behave as it says. *)
Theorem parse_repo_string_accepts :
  (forall s u n b,
     parse_repo_string s = inl (u, n, b) <-> accepted_as s u n b) /\
  (forall s,
     (exists u n b, parse_repo_string s = inl (u, n, b)) \/
     parse_repo_string s = inr BadFormat) /\
  parse_repo_string (str "alice/myrepo@main")
  = inl (str "alice", str "myrepo", str "main") /\
  parse_repo_string (str "alice/myrepo") = inr BadFormat.
Proof.
  split; [|split; [|split; reflexivity]].
  - intros s u n b. split; [apply parses_accepted|apply accepted_parses].
  - intros s. rewrite parse_repo_string_runs.
    repeat match goal with
           | |- context [match ?x with _ => _ end] => destruct x
           end; eauto.
Qed.

(** C10, as stated, fails: with a branch of two lines only the first line
    is returned. *)
Lemma parse_cuts_branch_at_newline :
  Str.nonempty (str "a") = true /\ Char.mem "/" (str "a") = false /\
  Str.nonempty (str "b") = true /\ Char.mem "@" (str "b") = false /\
  Str.nonempty ["c"; nl; "d"] = true /\
  ref_two_lines = str "a" ++ "/" :: str "b" ++ "@" :: ["c"; nl; "d"] /\
  parse_repo_string ref_two_lines = inl (str "a", str "b", str "c") /\
  parse_repo_string ref_two_lines <> inl (str "a", str "b", ["c"; nl; "d"]).
Proof. repeat split; try reflexivity. discriminate. Qed.

(** C10, amended: for an owner without slash, a name without at sign and a
    branch without newline, all non-empty, the parser returns exactly these
    parts; the name may contain slashes, the branch slashes and at signs, the
    owner at signs. *)
Theorem parse_repo_string_lax (u n b : text) :
  Str.nonempty u = true -> Char.mem "/" u = false ->
  Str.nonempty n = true -> Char.mem "@" n = false ->
  Str.nonempty b = true -> Char.mem nl b = false ->
  parse_repo_string (u ++ "/" :: n ++ "@" :: b) = inl (u, n, b).
Proof.
  intros Hu Hu' Hn Hn' Hb Hb'. apply accepted_parses.
  exists []. rewrite app_nil_r. repeat split; auto.
Qed.

Lemma parse_repo_string_lax_witness :
  parse_repo_string (str "a@x/b/c@d/e@f")
  = inl (str "a@x", str "b/c", str "d/e@f").
Proof.
  apply (parse_repo_string_lax (str "a@x") (str "b/c") (str "d/e@f"));
    reflexivity.
Defined.

(** ** Link rewriter *)

(** C7: whenever one of the two compiled patterns matches, the single group
    it captures is the longest run of characters that are neither whitespace
    nor one of the five delimiters, and the replacement is
    [https://<custom-domain>/] followed by that path without its leading
    slashes, so no slash follows the one after the domain. *)
Theorem captured_path_longest_and_stripped
    (u r b d s : text) (pattern : list node) (groups : list text)
    (rest : text) (n : nat) :
  compile (jsdelivr_source u r b) = Some pattern \/
  compile (github_raw_source u r b) = Some pattern ->
  match_at pattern s = Some (groups, rest) ->
  exists (before path stripped : text) (k : nat),
    groups = [path] /\ s = before ++ path ++ rest /\
    path <> [] /\ all_path_chars path /\ stops rest /\
    path = repeat "/" k ++ stripped /\
    Str.startswith stripped ["/"] = false /\
    replacer d groups n = (str "https://" ++ d ++ "/" :: stripped, S n).
Proof.
  intros Hpat Hm.
  assert (Hlit : exists lit', pattern = url_nodes (":" :: lit')).
  { destruct Hpat as [H|H].
    - rewrite compile_jsdelivr in H. injection H as <-. eexists. reflexivity.
    - rewrite compile_github_raw in H. injection H as <-. eexists. reflexivity. }
  destruct Hlit as [lit' ->]. rewrite match_url in Hm.
  destruct (url_match (":" :: lit') s) as [[path rest']|] eqn:Hu; [|discriminate].
  injection Hm as <- <-.
  destruct (url_match_inv _ _ _ _ Hu) as (scheme & _ & -> & Hne & Hall & Hstop).
  destruct (lstrip_char_spec "/" path) as (k & Hk & Hstrip).
  exists (scheme ++ ":" :: lit'), path, (Str.lstrip_char "/" path), k.
  rewrite <- app_assoc. repeat split; assumption.
Qed.

Lemma captured_path_longest_and_stripped_witness :
  exists (before path stripped : text) (k : nat),
    [str "/images/a.png"] = [path] /\
    str "http://cdn.jsdelivr.net/gh/alice/myrepo@main//images/a.png) and"
    = before ++ path ++ str ") and" /\
    path <> [] /\ all_path_chars path /\ stops (str ") and") /\
    path = repeat "/" k ++ stripped /\
    Str.startswith stripped ["/"] = false /\
    replacer ex_domain [str "/images/a.png"] 4
    = (str "https://" ++ ex_domain ++ "/" :: stripped, 5).
Proof.
  apply (captured_path_longest_and_stripped ex_user ex_repo ex_branch ex_domain
           (str "http://cdn.jsdelivr.net/gh/alice/myrepo@main//images/a.png) and")
           (jsdelivr_nodes ex_user ex_repo ex_branch)).
  - left. vm_compute. reflexivity.
  - vm_compute. reflexivity.
Defined.











(** ** File walker and run *)

(** C9: a file name is selected exactly when some suffix of it equals, once
    both are lowered, one of the comma-separated extensions (trimmed of
    surrounding whitespace, empty ones dropped).  The loop body leaves the
    state as it is for a name that is not selected; for a selected one it
    prints the processing line, opens the joined path for reading and counts
    the file.  Over a whole run that gets past its checks, the files opened
    for reading are the earlier ones and the files of the walk with a
    selected name.  In a directory with [notes.txt], [README.MD],
    [NOTES.TXT] and [md], extension [.md] processes [README.MD] alone and
    [.md,.txt] the first three, whatever the case of the extensions. *)
Theorem file_processed_iff_extension_suffix :
  (forall exts name,
     selected (parse_extensions exts) name = true
     <-> exists ext,
           In ext (Str.split "," exts) /\ Str.strip ext <> [] /\
           exists pre suf, name = pre ++ suf /\
                           Str.lower suf = Str.lower (Str.strip ext)) /\
  (forall u r b d exts root st name,
     selected (parse_extensions exts) name = false ->
     process_file u r b d (parse_extensions exts) root st name = st) /\
  (forall u r b d exts root st name,
     selected (parse_extensions exts) name = true ->
     let st' := process_file u r b d (parse_extensions exts) root st name in
     let path := Str.path_join root name in
     total_files_processed st' = S (total_files_processed st) /\
     reads (events (the_world st')) = reads (events (the_world st)) ++ [path] /\
     exists lines,
       stdout (the_world st')
       = stdout (the_world st) ++ OutProcessing path :: lines) /\
  (forall a w u r b q,
     parse_repo_string (repo a) = inl (u, r, b) ->
     parse_extensions (extensions a) <> [] ->
     In q (reads (events (snd (main a w))))
     <-> In q (reads (events w)) \/
         exists root names name,
           In (root, names) (fst (os_walk (directory a) w)) /\
           In name names /\
           selected (parse_extensions (extensions a)) name = true /\
           q = Str.path_join root name) /\
  reads (events (snd (main (ex_mixed_args (str ".md")) ex_mixed_world)))
  = [str "d/README.MD"] /\
  reads (events (snd (main (ex_mixed_args (str ".md,.txt")) ex_mixed_world)))
  = [str "d/notes.txt"; str "d/README.MD"; str "d/NOTES.TXT"] /\
  reads (events (snd (main (ex_mixed_args (str " .MD , .Txt ,")) ex_mixed_world)))
  = [str "d/notes.txt"; str "d/README.MD"; str "d/NOTES.TXT"].
Proof.
  split; [exact selected_spec|]. split; [|split; [|split]].
  - intros u r b d exts root st name Hs. unfold process_file. now rewrite Hs.
  - intros u r b d exts root st name Hs. cbn zeta.
    pose proof (process_file_reads u r b d (parse_extensions exts) root st name)
      as Hr.
    rewrite Hs in Hr. split; [|split; [exact Hr|]].
    + unfold process_file. rewrite Hs.
      now destruct (replace_links_in_file _ _ _ _ _ _).
    + unfold process_file. rewrite Hs.
      destruct (replace_links_in_file_stdout (Str.path_join root name) u r b d
                  (print (OutProcessing (Str.path_join root name)) (the_world st)))
        as [lines Hl].
      destruct (replace_links_in_file _ _ _ _ _ _) as [count w2].
      cbn [snd the_world stdout print] in *. exists lines.
      rewrite Hl, <- app_assoc. reflexivity.
  - intros a w u r b q Hp He.
    rewrite (main_reads a w u r b Hp He), in_app_iff, in_selected_paths.
    reflexivity.
  - repeat split; vm_compute; reflexivity.
Qed.

Lemma file_processed_iff_extension_suffix_witness :
  process_file ex_user ex_repo ex_branch ex_domain
    (parse_extensions (str ".md")) (str "d")
    (RunState 0 0 ex_mixed_world) (str "notes.txt")
  = RunState 0 0 ex_mixed_world /\
  total_files_processed
    (process_file ex_user ex_repo ex_branch ex_domain
       (parse_extensions (str ".md,.txt")) (str "d")
       (RunState 0 0 ex_mixed_world) (str "NOTES.TXT")) = 1.
Proof.
  split.
  - apply (proj1 (proj2 file_processed_iff_extension_suffix) ex_user ex_repo
             ex_branch ex_domain (str ".md") (str "d")
             (RunState 0 0 ex_mixed_world) (str "notes.txt")).
    reflexivity.
  - apply (proj1 (proj2 (proj2 file_processed_iff_extension_suffix)) ex_user
             ex_repo ex_branch ex_domain (str ".md,.txt") (str "d")
             (RunState 0 0 ex_mixed_world) (str "NOTES.TXT")).
    reflexivity.
Defined.

(** C6: a readable file whose text both substitutions leave as it is is
    only opened for reading: nothing is written and nothing printed.  A
    call opens a file for writing only if it is the file it was given and
    its text changed.  Over a whole run, every such file is the same
    afterwards. *)
Theorem unchanged_file_not_written :
  (forall p u r b d w f n,
     files w !! p = Some f -> read_fault f = None ->
     substitute u r b d (contents f) = Some (contents f, n) ->
     replace_links_in_file p u r b d w = (n, log (EvOpenRead p) w)) /\
  (forall p u r b d w q,
     In (EvOpenWrite q) (events (snd (replace_links_in_file p u r b d w))) ->
     In (EvOpenWrite q) (events w) \/
     (q = p /\
      exists f out n,
        files w !! p = Some f /\
        substitute u r b d (contents f) = Some (out, n) /\
        out <> contents f)) /\
  (forall a w q f,
     files w !! q = Some f ->
     (forall u r b,
        parse_repo_string (repo a) = inl (u, r, b) ->
        exists n, substitute u r b (domain a) (contents f) = Some (contents f, n)) ->
     files (snd (main a w)) !! q = Some f).
Proof.
  split; [|split].
  - intros p u r b d w f n Hf Hr Hs.
    rewrite substitute_eq in Hs. injection Hs as Hout <-.
    pose proof (replace_links_in_file_cases p u r b d w) as H.
    rewrite Hf, Hr in H. cbn zeta in H.
    rewrite Hout in H.
    assert (E : Str.eqb (contents f) (contents f) = true) by now apply str_eqb_eq.
    now rewrite E in H.
  - intros p u r b d w q Hin.
    pose proof (replace_links_in_file_cases p u r b d w) as H.
    destruct (files w !! p) as [f|] eqn:Hf.
    2:{ rewrite H in Hin. cbn in Hin. apply in_app_or in Hin as [Hin|[Hin|[]]];
        [now left|discriminate]. }
    destruct (read_fault f) as [e|].
    { rewrite H in Hin. cbn in Hin. apply in_app_or in Hin as [Hin|[Hin|[]]];
        [now left|discriminate]. }
    cbn zeta in H. destruct (Str.eqb _ _) eqn:He.
    { rewrite H in Hin. cbn in Hin. apply in_app_or in Hin as [Hin|[Hin|[]]];
        [now left|discriminate]. }
    assert (Hne : rewritten u r b d (contents f) <> contents f).
    { intros E. apply str_eqb_eq in E. congruence. }
    assert (Hq : In (EvOpenWrite q) (events w ++ [EvOpenRead p] ++ [EvOpenWrite p])).
    { destruct (write_fault f); rewrite H in Hin; cbn in Hin;
        rewrite <- ?app_assoc in Hin; exact Hin. }
    apply in_app_or in Hq as [Hq|[Hq|[Hq|[]]]]; [now left|discriminate|].
    injection Hq as <-. right. split; [reflexivity|].
    exists f, (rewritten u r b d (contents f)), (replacements u r b d (contents f)).
    rewrite substitute_eq. auto.
  - intros a w q f Hq Hsame. apply main_frame; [exact Hq|].
    intros u r b Hp. destruct (Hsame u r b Hp) as [n Hn].
    rewrite substitute_eq in Hn. now injection Hn.
Qed.

Lemma unchanged_file_not_written_witness :
  replace_links_in_file (str "d/a.md") ex_user ex_repo ex_branch ex_domain
    (World {[ str "d/a.md" := File (str "no links here") None None ]} ∅ [] [] [])
  = (0, log (EvOpenRead (str "d/a.md"))
          (World {[ str "d/a.md" := File (str "no links here") None None ]} ∅
                 [] [] [])).
Proof.
  apply (proj1 unchanged_file_not_written (str "d/a.md") ex_user ex_repo ex_branch
           ex_domain _ (File (str "no links here") None None) 0); reflexivity.
Defined.



(** C1, on the code: when a file is read, its text changes under the
    substitutions and opening it for writing fails, the call reports the
    error, leaves every file as it was and still returns the positive
    number of matches.  So for a Markdown file that holds one link and cannot
    be written, the run goes on to its summary, and the summary counts one
    replacement. *)
Theorem failed_write_is_counted :
  (forall p u r b d w f e,
     files w !! p = Some f -> read_fault f = None -> write_fault f = Some e ->
     rewritten u r b d (contents f) <> contents f ->
     0 < fst (replace_links_in_file p u r b d w) /\
     files (snd (replace_links_in_file p u r b d w)) = files w /\
     stdout (snd (replace_links_in_file p u r b d w)) = stdout w ++ [report p e]) /\
  fst (main ex_args ex_locked_world) = 0 /\
  files (snd (main ex_args ex_locked_world)) !! str "d/a.md" = Some ex_locked_file /\
  stdout (snd (main ex_args ex_locked_world))
  = [OutBanner (str "alice/myrepo@main") ex_domain (str "d") [str ".md"];
     OutProcessing (str "d/a.md");
     OutIOError (str "d/a.md");
     OutSummary 1 1].
Proof.
  split.
  - intros p u r b d w f e Hf Hr Hw Hne.
    destruct (write_failure_counted p u r b d w f e Hf Hr Hw Hne) as [-> Hpos].
    repeat split. exact Hpos.
  - vm_compute. repeat split.
Qed.

Lemma failed_write_is_counted_witness :
  0 < fst (replace_links_in_file (str "d/a.md") ex_user ex_repo ex_branch
             ex_domain ex_locked_world) /\
  files (snd (replace_links_in_file (str "d/a.md") ex_user ex_repo ex_branch
                ex_domain ex_locked_world))
  = files ex_locked_world /\
  stdout (snd (replace_links_in_file (str "d/a.md") ex_user ex_repo ex_branch
                 ex_domain ex_locked_world))
  = stdout ex_locked_world ++ [report (str "d/a.md") IOError].
Proof.
  apply (proj1 failed_write_is_counted (str "d/a.md") ex_user ex_repo ex_branch
           ex_domain ex_locked_world ex_locked_file IOError);
    try reflexivity.
  vm_compute. discriminate.
Defined.

(** * Further properties of the code *)

(** ** [parse_repo_string] *)

(** X1: parsing, joining the three parts again and parsing the result gives
    the same parts; the joined text is the beginning of the input, and what
    follows it, if anything, starts on a new line. *)
Theorem parse_repo_string_round_trip (s u n b : text) :
  parse_repo_string s = inl (u, n, b) ->
  parse_repo_string (u ++ "/" :: n ++ "@" :: b) = inl (u, n, b) /\
  exists rest,
    s = (u ++ "/" :: n ++ "@" :: b) ++ rest /\
    (rest = [] \/ exists rest', rest = nl :: rest').
Proof.
  intros H. apply parses_accepted in H.
  destruct H as (rest & -> & Hu & Hu' & Hn & Hn' & Hb & Hb' & Hrest). split.
  - apply accepted_parses. exists []. rewrite app_nil_r. repeat split; auto.
  - exists rest. split; [|exact Hrest].
    repeat (rewrite <- app_assoc; cbn [app]). reflexivity.
Qed.

Lemma parse_repo_string_round_trip_witness :
  parse_repo_string (str "a" ++ "/" :: str "b" ++ "@" :: str "c")
  = inl (str "a", str "b", str "c") /\
  exists rest,
    ref_two_lines = (str "a" ++ "/" :: str "b" ++ "@" :: str "c") ++ rest /\
    (rest = [] \/ exists rest', rest = nl :: rest').
Proof.
  apply (parse_repo_string_round_trip ref_two_lines (str "a") (str "b") (str "c")).
  reflexivity.
Defined.

(** ** The substitutions *)

(** X2: whatever the owner, name and branch are, both patterns compile, so
    the substitutions always produce a text and a count; the line for an
    unexpected error is printed only when reading or writing the file itself
    raised such an error. *)
Theorem patterns_always_compile :
  (forall u r b d content,
     exists out n, substitute u r b d content = Some (out, n)) /\
  (forall p u r b d w q,
     In (OutUnexpected q) (stdout (snd (replace_links_in_file p u r b d w))) ->
     In (OutUnexpected q) (stdout w) \/
     (q = p /\
      exists f,
        files w !! p = Some f /\
        (read_fault f = Some OtherError \/ write_fault f = Some OtherError))).
Proof.
  split.
  - intros u r b d content. rewrite substitute_eq. eauto.
  - intros p u r b d w q Hin.
    pose proof (replace_links_in_file_cases p u r b d w) as H.
    destruct (files w !! p) as [f|] eqn:Hf.
    2:{ rewrite H in Hin. cbn in Hin. apply in_app_or in Hin as [Hin|[Hin|[]]];
        [now left|discriminate]. }
    destruct (read_fault f) as [e|] eqn:Hr.
    { rewrite H in Hin. cbn in Hin. apply in_app_or in Hin as [Hin|[Hin|[]]];
        [now left|].
      destruct e; try discriminate. injection Hin as <-. right. eauto. }
    cbn zeta in H. destruct (Str.eqb _ _).
    { rewrite H in Hin. now left. }
    destruct (write_fault f) as [e|] eqn:Hw.
    + rewrite H in Hin. cbn in Hin. apply in_app_or in Hin as [Hin|[Hin|[]]];
        [now left|].
      destruct e; try discriminate. injection Hin as <-. right. eauto.
    + rewrite H in Hin. cbn in Hin. apply in_app_or in Hin as [Hin|[Hin|[]]];
        [now left|discriminate].
Qed.

Lemma patterns_always_compile_witness :
  In (OutUnexpected (str "p")) [] \/
  (str "p" = str "p" /\
   exists f,
     files (World {[ str "p" := File [] (Some OtherError) None ]} ∅ [] [] [])
       !! str "p" = Some f /\
     (read_fault f = Some OtherError \/ write_fault f = Some OtherError)).
Proof.
  apply (proj2 patterns_always_compile (str "p") (str "a+b") (str "(c") (str "[d")
           ex_domain
           (World {[ str "p" := File [] (Some OtherError) None ]} ∅ [] [] [])
           (str "p")).
  vm_compute. now left.
Defined.

(** X3: a text in which [http] does not occur comes back unchanged, with a
    count of zero, for every configuration. *)
Theorem text_without_http_unchanged (u r b d content : text) :
  count_http content = 0 -> substitute u r b d content = Some (content, 0).
Proof.
  intros H. rewrite substitute_eq.
  now destruct (rewritten_no_http u r b d content H) as [-> ->].
Qed.

Lemma text_without_http_unchanged_witness :
  substitute (str "a.b") (str "c") (str "d") ex_domain
             (str "see cdn.jsdelivr.net/gh/a.b/c@d/x and ftp://h/ttp")
  = Some (str "see cdn.jsdelivr.net/gh/a.b/c@d/x and ftp://h/ttp", 0).
Proof.
  apply (text_without_http_unchanged (str "a.b") (str "c") (str "d") ex_domain).
  reflexivity.
Defined.

(** X4: when the owner, name and branch hold only characters that a path
    may contain, the substitutions work separately on the text before and
    after any whitespace or delimiter character: the outputs are joined by
    that character and the counts add up. *)
Theorem substitute_splits_at_delimiter
    (u r b d a : text) (e : ascii) (t out_a out_t : text) (n_a n_t : nat) :
  all_path_chars u -> all_path_chars r -> all_path_chars b ->
  path_char e = false ->
  substitute u r b d a = Some (out_a, n_a) ->
  substitute u r b d t = Some (out_t, n_t) ->
  substitute u r b d (a ++ e :: t) = Some (out_a ++ e :: out_t, n_a + n_t).
Proof.
  intros Hu Hr Hb He Ha Ht. rewrite substitute_eq in *.
  injection Ha as <- <-. injection Ht as <- <-.
  now destruct (rewritten_app_stop u r b d a e t Hu Hr Hb He) as [-> ->].
Qed.

Lemma substitute_splits_at_delimiter_witness :
  substitute ex_user ex_repo ex_branch ex_domain
             (ex_jsdelivr_url ++ " " :: ex_raw_url)
  = Some (ex_jsdelivr_new ++ " " :: ex_raw_new, 1 + 1).
Proof.
  apply (substitute_splits_at_delimiter ex_user ex_repo ex_branch ex_domain);
    try reflexivity; repeat constructor.
Defined.

(** ** [replace_links_in_file] *)

(** X5: a call that returns zero has written nothing: every file is as
    before and the only file system call was opening the file for
    reading. *)
Theorem zero_count_nothing_written (p u r b d : text) (w : world) :
  fst (replace_links_in_file p u r b d w) = 0 ->
  files (snd (replace_links_in_file p u r b d w)) = files w /\
  events (snd (replace_links_in_file p u r b d w)) = events w ++ [EvOpenRead p].
Proof.
  pose proof (replace_links_in_file_cases p u r b d w) as H.
  destruct (files w !! p) as [f|] eqn:Hf; [|rewrite H; now split].
  destruct (read_fault f) as [e|]; [rewrite H; now split|]. cbn zeta in H.
  destruct (Str.eqb _ _) eqn:He; [rewrite H; now split|].
  assert (Hne : replacements u r b d (contents f) <> 0).
  { intros E. apply replacements_zero in E. apply str_eqb_eq in E. congruence. }
  destruct (write_fault f); rewrite H; cbn [fst]; intros E; contradiction.
Qed.

Lemma zero_count_nothing_written_witness :
  files (snd (replace_links_in_file (str "d/gone.md") ex_user ex_repo ex_branch
                ex_domain ex_open_world))
  = files ex_open_world /\
  events (snd (replace_links_in_file (str "d/gone.md") ex_user ex_repo ex_branch
                 ex_domain ex_open_world))
  = events ex_open_world ++ [EvOpenRead (str "d/gone.md")].
Proof.
  apply (zero_count_nothing_written (str "d/gone.md") ex_user ex_repo ex_branch
           ex_domain ex_open_world).
  reflexivity.
Defined.

(** X6: for a file that can be read and written and whose text the
    substitutions change, the call opens it for reading, then for writing,
    writes exactly the substituted text under its path, where a later read
    finds it with its carriage returns turned into line feeds, prints the
    count and returns it; the count is positive. *)
Theorem changed_file_written
    (p u r b d : text) (w : world) (f : file) (out : text) (n : nat) :
  files w !! p = Some f -> read_fault f = None -> write_fault f = None ->
  substitute u r b d (contents f) = Some (out, n) -> out <> contents f ->
  0 < n /\
  fst (replace_links_in_file p u r b d w) = n /\
  files (snd (replace_links_in_file p u r b d w))
  = <[p := File (universal_newlines out) None None]> (files w) /\
  events (snd (replace_links_in_file p u r b d w))
  = events w ++ [EvOpenRead p; EvOpenWrite p] /\
  stdout (snd (replace_links_in_file p u r b d w)) = stdout w ++ [OutReplaced n].
Proof.
  intros Hf Hr Hw Hs Hne. rewrite substitute_eq in Hs. injection Hs as <- <-.
  pose proof (replace_links_in_file_cases p u r b d w) as H.
  rewrite Hf, Hr, Hw in H. cbn zeta in H.
  destruct (Str.eqb _ _) eqn:He; [apply str_eqb_eq in He; contradiction|].
  rewrite H. cbn [fst snd files events stdout print].
  repeat split.
  destruct (replacements u r b d (contents f)) eqn:E; [|lia].
  apply replacements_zero in E. contradiction.
Qed.

Lemma changed_file_written_witness :
  0 < 1 /\
  fst (replace_links_in_file (str "d/a.md") ex_user ex_repo ex_branch ex_domain
         ex_open_world) = 1 /\
  files (snd (replace_links_in_file (str "d/a.md") ex_user ex_repo ex_branch
                ex_domain ex_open_world))
  = <[str "d/a.md" := File (str "see " ++ ex_jsdelivr_new) None None]>
      (files ex_open_world) /\
  events (snd (replace_links_in_file (str "d/a.md") ex_user ex_repo ex_branch
                 ex_domain ex_open_world))
  = events ex_open_world ++ [EvOpenRead (str "d/a.md"); EvOpenWrite (str "d/a.md")] /\
  stdout (snd (replace_links_in_file (str "d/a.md") ex_user ex_repo ex_branch
                 ex_domain ex_open_world))
  = stdout ex_open_world ++ [OutReplaced 1].
Proof.
  apply (changed_file_written (str "d/a.md") ex_user ex_repo ex_branch ex_domain
           ex_open_world ex_open_file (str "see " ++ ex_jsdelivr_new) 1);
    try reflexivity.
  discriminate.
Defined.

(** X7: a file that is missing, or whose reading raises, is reported with
    the line of its exception and skipped: the call returns zero, changes no
    file (a missing file is not created) and makes no other file system
    call. *)
Theorem unreadable_file_skipped (p u r b d : text) (w : world) (e : exn) :
  (files w !! p = None /\ e = FileNotFoundError) \/
  (exists f, files w !! p = Some f /\ read_fault f = Some e) ->
  replace_links_in_file p u r b d w
  = (0, print (report p e) (log (EvOpenRead p) w)).
Proof.
  intros H. pose proof (replace_links_in_file_cases p u r b d w) as Hc.
  destruct H as [[H ->]|(f & H & He)]; rewrite H in Hc; [|rewrite He in Hc];
    exact Hc.
Qed.

Lemma unreadable_file_skipped_witness :
  replace_links_in_file (str "d/gone.md") ex_user ex_repo ex_branch ex_domain
    ex_open_world
  = (0, print (report (str "d/gone.md") FileNotFoundError)
          (log (EvOpenRead (str "d/gone.md")) ex_open_world)).
Proof.
  apply (unreadable_file_skipped (str "d/gone.md") ex_user ex_repo ex_branch
           ex_domain ex_open_world FileNotFoundError).
  left. split; reflexivity.
Defined.

(** ** [main] *)

(** X8: a run neither creates nor removes a file: a path has a file after
    the run exactly when it had one before. *)
Theorem main_keeps_file_set (a : args) (w : world) (q : text) :
  files (snd (main a w)) !! q = None <-> files w !! q = None.
Proof.
  unfold main.
  destruct (parse_repo_string (repo a)) as [[[u r] b]|e]; [|reflexivity].
  destruct (parse_extensions (extensions a)) as [|x exts]; [reflexivity|].
  unfold os_walk, summary. cbn [dirs print].
  assert (H : forall entries w2,
            files w2 = files w ->
            same_files (files w)
              (fold_left (process_dir u r b (domain a) (x :: exts)) entries
                         (RunState 0 0 w2))).
  { intros entries w2 Hw. apply run_same_files. intros q'. cbn. now rewrite Hw. }
  destruct (dirs w !! directory a) as [t|]; cbn [snd];
    match goal with
    | |- context [fold_left ?f ?l (RunState 0 0 ?w2)] =>
      specialize (H l w2 eq_refl q);
      destruct (total_files_processed (fold_left f l (RunState 0 0 w2)) =? 0)%nat;
      exact H
    end.
Qed.

(** X9: in a run that gets past its checks, the files opened for reading
    are exactly the files under the root whose name has a configured
    extension, each once and in the order of the walk; no other path is
    opened at all; and the last line printed reports their number, or that
    there was none. *)
Theorem main_reads_selected_files (a : args) (w : world) (u r b : text) :
  parse_repo_string (repo a) = inl (u, r, b) ->
  parse_extensions (extensions a) <> [] ->
  let exts := parse_extensions (extensions a) in
  let paths := selected_paths exts (fst (os_walk (directory a) w)) in
  reads (events (snd (main a w))) = reads (events w) ++ paths /\
  (forall q, In q (opens (events (snd (main a w)))) ->
             In q (opens (events w)) \/ In q paths) /\
  exists lines n,
    stdout (snd (main a w))
    = lines ++ [match paths with
                | [] => OutNoFiles exts (directory a)
                | _ :: _ => OutSummary (length paths) n
                end].
Proof.
  intros Hp He. cbn zeta. unfold main. rewrite Hp.
  destruct (parse_extensions (extensions a)) as [|x exts] eqn:Hx; [contradiction|].
  set (banner := OutBanner (repo a) (domain a) (directory a) (x :: exts)).
  assert (Hw : fst (os_walk (directory a) (print banner w))
               = fst (os_walk (directory a) w))
    by (unfold os_walk; cbn [dirs print]; now destruct (dirs w !! directory a)).
  destruct (os_walk (directory a) (print banner w)) as [entries w2] eqn:Hwalk.
  assert (Hev : events w2 = events w ++ [EvWalk (directory a)]).
  { unfold os_walk in Hwalk. cbn [dirs print] in Hwalk.
    destruct (dirs w !! directory a); injection Hwalk as _ <-; reflexivity. }
  cbn [fst] in Hw. rewrite <- Hw.
  set (st := fold_left (process_dir u r b (domain a) (x :: exts)) entries
                       (RunState 0 0 w2)).
  assert (Hreads : reads (events (the_world st))
                   = reads (events w) ++ selected_paths (x :: exts) entries).
  { unfold st. rewrite run_reads. cbn [the_world]. rewrite Hev, reads_app. cbn.
    now rewrite app_nil_r. }
  assert (Hcount : total_files_processed st
                   = length (selected_paths (x :: exts) entries)).
  { assert (Hc : counted (length (reads (events w))) st).
    { unfold st. apply run_counted. unfold counted. cbn [the_world total_files_processed].
      rewrite Hev, reads_app. cbn. rewrite app_nil_r. lia. }
    unfold counted in Hc. rewrite Hreads, length_app in Hc. lia. }
  assert (Hopen : read_first (events w) st).
  { unfold st. apply run_read_first. intros q. cbn [the_world].
    rewrite Hev, opens_app. cbn. rewrite app_nil_r. now left. }
  assert (Hse : events (summary (x :: exts) (directory a) st)
                = events (the_world st)).
  { unfold summary. now destruct (_ =? _)%nat. }
  cbn [snd]. rewrite Hse, Hreads.
  split; [reflexivity|]. split.
  - intros q Hq. destruct (Hopen q Hq) as [H|H]; [now left|].
    rewrite Hreads in H. apply in_app_or in H as [H|H]; [|now right].
    left. unfold reads in H. unfold opens.
    apply in_flat_map in H as (ev & Hin & Hev'). apply in_flat_map.
    exists ev. split; [exact Hin|]. destruct ev; cbn in *; tauto.
  - unfold summary. rewrite Hcount.
    destruct (selected_paths (x :: exts) entries) as [|p0 ps]; cbn.
    + eexists. exists 0. reflexivity.
    + eexists. exists (total_replacements st). reflexivity.
Qed.

Lemma main_reads_selected_files_witness :
  reads (events (snd (main ex_args ex_open_world))) = [str "d/a.md"] /\
  (forall q, In q (opens (events (snd (main ex_args ex_open_world)))) ->
             In q [] \/ In q [str "d/a.md"]) /\
  exists lines n,
    stdout (snd (main ex_args ex_open_world)) = lines ++ [OutSummary 1 n].
Proof.
  apply (main_reads_selected_files ex_args ex_open_world ex_user ex_repo ex_branch).
  - reflexivity.
  - discriminate.
Defined.

(** X10: no extension is left, and the run stops with status 1 for that
    reason, exactly when the extension argument consists of commas and
    whitespace only (the empty argument included). *)
Theorem no_extension_iff_blank :
  (forall s, parse_extensions s = [] <-> forallb blank s = true) /\
  (forall a w t,
     parse_repo_string (repo a) = inl t ->
     (fst (main a w) = 1 <-> forallb blank (extensions a) = true)).
Proof.
  split; [exact parse_extensions_nil|].
  intros a w [[u r] b] Hp. rewrite <- parse_extensions_nil. unfold main. rewrite Hp.
  destruct (parse_extensions (extensions a)) as [|x exts]; [tauto|].
  destruct (os_walk _ _) as [entries w2]. cbn. split; discriminate.
Qed.

Lemma no_extension_iff_blank_witness :
  fst (main (Args (str "alice/myrepo@main") ex_domain (str "d") (str " , ,"))
            ex_open_world) = 1.
Proof.
  apply (proj2 no_extension_iff_blank
           (Args (str "alice/myrepo@main") ex_domain (str "d") (str " , ,"))
           ex_open_world (ex_user, ex_repo, ex_branch) eq_refl).
  reflexivity.
Defined.
